(** * Card system: activation codes signed with an HMAC and kept in SQLite

    A shallow embedding of [src/main.py] (class [CardSystem]) and the
    properties of its four operations: [generate_card], [verify_card],
    [mark_as_used] and [get_card_stats].

    Modelling decisions, each local to the definition that takes it:
    - a Python [str] is the list of its code points, a [bytes] a list of
      [Byte.byte];
    - [hmac.new(key, msg, 'sha3_256').digest()] is a parameter of the
      development ([hmac_sha3_256]); everything around it (UTF-8 encoding,
      hexadecimal rendering, truncation, comparison) is defined here;
    - the table [cards] is a finite map from [card_id] (its primary key) to
      the remaining columns;
    - [secrets.choice] reads a tape of natural numbers, threaded by position;
    - [CURRENT_TIMESTAMP] is a clock reading handed to the operation;
    - a failure of the storage layer is an input of each operation, placed
      at the statement of the source where it strikes. *)

From Stdlib Require Import ZArith NArith List Lia.
From Stdlib.Strings Require Import String Ascii Byte.
From stdpp Require Import base option numbers list gmap fin_maps.

Local Open Scope N_scope.

(** ** Python values *)

(** A character is its Unicode code point. *)
Abbreviation char := N.
Abbreviation str := (list N).
Abbreviation bytes := (list byte).

(** String literals of the source, as code points. *)
Definition lit (s : string) : str :=
  map N_of_ascii (list_ascii_of_string s).

(** Exceptions the modelled code can raise. [Sqlite3Error] stands for any
    [sqlite3.Error] other than [sqlite3.IntegrityError]. *)
Inductive exn :=
| IndexError
| RuntimeError
| TypeError
| ValueError
| UnicodeEncodeError
| IntegrityError
| Sqlite3Error.

(** [is_sqlite3_error e]: [e] is caught by [except sqlite3.Error]. *)
Definition is_sqlite3_error (e : exn) : bool :=
  match e with
  | IntegrityError | Sqlite3Error => true
  | _ => false
  end.

(** The outcome of a call: a returned value or a raised exception. *)
Inductive result (A : Type) :=
| Ok (a : A)
| Raise (e : exn).
Arguments Ok {A} a.
Arguments Raise {A} e.

#[global] Instance result_ret : MRet result := fun A a => Ok a.
#[global] Instance result_bind : MBind result := fun A B f r =>
  match r with
  | Ok a => f a
  | Raise e => Raise e
  end.

#[global] Instance exn_eq_dec : EqDecision exn.
Proof. solve_decision. Defined.

Module Py.

(** [c in s] for a one-character [c]. *)
Definition contains (c : char) (s : str) : bool :=
  existsb (N.eqb c) s.

(** [s.split(sep, 1)] for a one-character [sep]: the list [[s]] when
    [sep] does not occur, and otherwise the text before the first [sep]
    followed by everything after it. *)
Fixpoint split1 (sep : char) (s : str) : list str :=
  match s with
  | [] => [[]]
  | c :: rest =>
      if N.eqb c sep then [[]; rest]
      else match split1 sep rest with
           | hd :: tl => (c :: hd) :: tl
           | [] => [[c]]
           end
  end.

(** [str.isascii]. *)
Definition isascii (s : str) : bool := forallb (fun c => c <? 128) s.

Definition str_eqb (a b : str) : bool := bool_decide (a = b).

(** [hmac.compare_digest(a, b)] on two [str]: Python accepts ASCII-only
    strings and raises [TypeError] ("comparing strings with non-ASCII
    characters is not supported") on any other. *)
Definition compare_digest (a b : str) : result bool :=
  if isascii a && isascii b then Ok (str_eqb a b) else Raise TypeError.

Definition byte_of (n : N) : byte :=
  match Byte.of_N (n mod 256) with
  | Some b => b
  | None => x00
  end.

(** UTF-8 encoding of one code point; a surrogate (U+D800..U+DFFF) has
    none. *)
Definition utf8_char (c : char) : option bytes :=
  if c <? 128 then Some [byte_of c]
  else if c <? 2048 then
    Some [byte_of (192 + c / 64); byte_of (128 + c mod 64)]
  else if (55296 <=? c) && (c <=? 57343) then None
  else if c <? 65536 then
    Some [byte_of (224 + c / 4096); byte_of (128 + (c / 64) mod 64);
          byte_of (128 + c mod 64)]
  else
    Some [byte_of (240 + (c / 262144) mod 8);
          byte_of (128 + (c / 4096) mod 64);
          byte_of (128 + (c / 64) mod 64); byte_of (128 + c mod 64)].

(** [s.encode()]: [None] stands for [UnicodeEncodeError]. *)
Fixpoint encode (s : str) : option bytes :=
  match s with
  | [] => Some []
  | c :: rest =>
      match utf8_char c, encode rest with
      | Some b, Some bs => Some (b ++ bs)
      | _, _ => None
      end
  end.

(** One lowercase hexadecimal digit, for [d < 16]. *)
Definition hexdigit (d : N) : char :=
  if d <? 10 then 48 + d else 87 + d.

(** [bytes.hex()], the rendering used by [hexdigest]. *)
Definition hex (d : bytes) : str :=
  flat_map (fun b => [hexdigit (Byte.to_N b / 16);
                      hexdigit (Byte.to_N b mod 16)]) d.

(** [secrets.choice(seq)] reading the value [r] of the entropy source:
    an index below [len(seq)]. *)
Definition choice (seq : str) (r : nat) : char :=
  nth (r mod length seq)%nat seq 0.

End Py.

(** ** The table [cards] *)

(** The columns of [INIT_SCRIPT] other than the key [card_id].
    [created_at] is filled by [DEFAULT CURRENT_TIMESTAMP] (timestamps are
    seconds; SQLite's text form orders the same way), [is_used] by
    [DEFAULT FALSE], [usage_count] by [DEFAULT 0]; [used_at] has no default
    and starts as NULL. The counter is an unbounded integer here: it
    starts at 0 and grows by one per redemption, far from the 64-bit range
    of an SQLite INTEGER. *)
Record row := Row {
  raw_part : list N;
  signature : list N;
  created_at : Z;
  is_used : bool;
  used_at : option Z;
  usage_count : Z
}.

Abbreviation table := (gmap (list N) row).

(** Where the storage layer fails during one use of a connection:
    at [sqlite3.connect], while a statement runs, or at [conn.commit()]. *)
Inductive fault := NoFault | ConnectFault | ExecuteFault | CommitFault.

#[global] Instance fault_eq_dec : EqDecision fault.
Proof. solve_decision. Defined.

Module Sql.

(** A [str] bound to a [?] placeholder is sent as UTF-8. *)
Definition bind_text (s : str) : result unit :=
  match Py.encode s with
  | Some _ => Ok tt
  | None => Raise UnicodeEncodeError
  end.

(** [INSERT INTO cards (card_id, raw_part, signature) VALUES (?, ?, ?)]:
    the primary key refuses a [card_id] that is already there. *)
Definition insert_card (now : Z) (c : list N * list N * list N)
    (db : table) : result table :=
  let '(card_id, raw, sig) := c in
  _ ← bind_text card_id; _ ← bind_text raw; _ ← bind_text sig;
  match db !! card_id with
  | Some _ => Raise IntegrityError
  | None => Ok (<[card_id := Row raw sig now false None 0]> db)
  end.

(** [conn.executemany(INSERT ..., cards)]: the rows go in one after the
    other, each seeing the ones before it. *)
Fixpoint executemany_insert (now : Z) (cards : list (list N * list N * list N))
    (db : table) : result table :=
  match cards with
  | [] => Ok db
  | c :: rest => db' ← insert_card now c db; executemany_insert now rest db'
  end.

(** [UPDATE cards SET is_used = TRUE, used_at = CURRENT_TIMESTAMP,
    usage_count = usage_count + 1 WHERE card_id = ?]: the new table and the
    number of rows changed. The counter is an integer without bound here;
    the column is a 64-bit INTEGER, so the two agree while the counter
    stays within [fits_int64] (see below), which the statements about
    counters that may be large assume. *)
Definition update_used (now : Z) (card : str) (db : table) : table * Z :=
  match db !! card with
  | Some r =>
      (<[card := Row (raw_part r) (signature r) (created_at r) true
                     (Some now) (usage_count r + 1)]> db, 1%Z)
  | None => (db, 0%Z)
  end.

(** [SELECT is_used, usage_count FROM cards WHERE card_id = ?], then
    [fetchone()]. *)
Definition select_card (card : str) (db : table) : option (bool * Z) :=
  (fun r => (is_used r, usage_count r)) <$> db !! card.

(** The rows of the table, for the aggregates. *)
Definition rows (db : table) : list row := (map_to_list db).*2.

(** [SUM(x)]: NULL over no row, otherwise the running sum. *)
Definition sum (xs : list Z) : option Z :=
  foldl (fun acc x => Some (default 0%Z acc + x)%Z) None xs.

(** [MIN(x)] and [MAX(x)]: NULL over no row. *)
Definition min (xs : list Z) : option Z :=
  foldl (fun acc x => Some (from_option (Z.min x) x acc)) None xs.
Definition max (xs : list Z) : option Z :=
  foldl (fun acc x => Some (from_option (Z.max x) x acc)) None xs.

End Sql.

(** ** The card engine ([class CardSystem]) *)

Module CardSystem.

(** The separator of [f"{raw}#{signature}"] and of [card.split('#', 1)]. *)
Definition SEP : char := 35.

(** [charset] of [generate_card]. *)
Definition charset : list N := lit "ABCDEFGHJKLMNPQRSTUVWXYZ23456789!@#$%^&*".

(** [max_attempts] of [generate_card]. *)
Definition max_attempts : nat := 5.

(** The [error] entry of the dictionary [verify_card] returns:
    - [ErrFormat]    "无效卡密格式"   (no separator)
    - [ErrLength]    "长度不符合要求" (raw part or signature of the wrong length)
    - [ErrSignature] "签名验证失败"   (signature mismatch)
    - [ErrNotFound]  "卡密不存在"     (no such row)
    - [ErrDatabase]  "数据库错误: …"  (a caught [sqlite3.Error]) *)
Inductive verify_error :=
| ErrFormat
| ErrLength
| ErrSignature
| ErrNotFound
| ErrDatabase.

#[global] Instance verify_error_eq_dec : EqDecision verify_error.
Proof. solve_decision. Defined.

(** The dictionary [result] of [verify_card]. *)
Record verification := Verification {
  valid : bool;
  v_is_used : option bool;
  v_usage_count : Z;
  error : option verify_error
}.

(** [result] as [verify_card] initialises it, with [error] set. *)
Definition rejected (e : verify_error) : verification :=
  Verification false None 0 (Some e).

(** The dictionary of [get_card_stats]; [None] is SQL NULL. *)
Record stats := Stats {
  total : Z;
  used_count : option Z;
  total_uses : option Z;
  oldest : option Z;
  newest : option Z
}.

Section WithKey.

(** [hmac.new(key, msg, 'sha3_256').digest()]. *)
Variable hmac_sha3_256 : list byte -> list byte -> list byte.

(** [self.key], loaded once by [_load_or_generate_key]. *)
Variable key : list byte.

(** [hmac.new(self.key, raw.encode(), 'sha3_256').hexdigest()[:10]]. *)
Definition sign (raw : str) : result (list N) :=
  match Py.encode raw with
  | Some msg => Ok (take 10 (Py.hex (hmac_sha3_256 key msg)))
  | None => Raise UnicodeEncodeError
  end.

(** [''.join(secrets.choice(charset) for _ in range(16))], reading the
    tape from position [pos]. *)
Definition random_raw (tape : nat -> nat) (pos : nat) : list N :=
  map (fun i => Py.choice charset (tape (pos + i)%nat)) (seq 0 16).

(** The body of [for _ in range(batch_size)]: the list [cards] of triples
    [(card_id, raw, signature)]. *)
Fixpoint build_cards (n : nat) (tape : nat -> nat) (pos : nat)
    : result (list (list N * list N * list N)) :=
  match n with
  | O => Ok []
  | S n' =>
      let raw := random_raw tape pos in
      signature ← sign raw;
      rest ← build_cards n' tape (pos + 16)%nat;
      Ok ((raw ++ SEP :: signature, raw, signature) :: rest)
  end.

(** [with self._db_connection() as conn: conn.executemany(...);
    conn.commit()]. A batch that is not committed is rolled back when the
    connection closes, so the table changes only when all of it went in. *)
Definition insert_batch (f : fault) (now : Z)
    (cards : list (list N * list N * list N)) (db : table) : result table :=
  match f with
  | ConnectFault | ExecuteFault => Raise Sqlite3Error
  | CommitFault => _ ← Sql.executemany_insert now cards db; Raise Sqlite3Error
  | NoFault => Sql.executemany_insert now cards db
  end.

(** The loop [while attempts < max_attempts] of [generate_card], by
    recursion on [max_attempts - attempts]. Only [sqlite3.IntegrityError]
    is caught; [cards[0][0]] is evaluated after the commit. *)
Fixpoint generate_loop (remaining attempts : nat) (faults : nat -> fault)
    (tape : nat -> nat) (pos : nat) (now : Z) (n : nat) (db : table)
    : result (list N) * table :=
  match remaining with
  | O => (Raise RuntimeError, db)
  | S remaining' =>
      match build_cards n tape pos with
      | Raise e => (Raise e, db)
      | Ok cards =>
          match insert_batch (faults attempts) now cards db with
          | Ok db' =>
              (match cards with
               | c :: _ => Ok c.1.1
               | [] => Raise IndexError
               end, db')
          | Raise IntegrityError =>
              generate_loop remaining' (S attempts) faults tape
                (pos + 16 * n)%nat now n db
          | Raise e => (Raise e, db)
          end
      end
  end.

(** [generate_card(batch_size)]: [faults i] is the storage fault of the
    attempt numbered [i], [range(batch_size)] is empty for
    [batch_size <= 0]. *)
Definition generate_card (faults : nat -> fault) (tape : nat -> nat)
    (now : Z) (db : table) (batch_size : Z) : result (list N) * table :=
  generate_loop max_attempts 0 faults tape 0 now (Z.to_nat batch_size) db.

(** The [try] block of [verify_card]: open the connection, run the
    SELECT, read the row. *)
Definition lookup_card (f : fault) (db : table) (card : str)
    : result verification :=
  match f with
  | ConnectFault | ExecuteFault => Raise Sqlite3Error
  | NoFault | CommitFault =>
      _ ← Sql.bind_text card;
      match Sql.select_card card db with
      | None => Ok (rejected ErrNotFound)
      | Some (used, count) => Ok (Verification true (Some used) count None)
      end
  end.

(** [verify_card(card)]. The [try] encloses the [with], so every
    [sqlite3.Error], the one of [connect] included, is caught; nothing is
    committed, so a fault of [commit] cannot strike. *)
Definition verify_card (f : fault) (db : table) (card : str)
    : result verification :=
  if negb (Py.contains SEP card) then Ok (rejected ErrFormat)
  else
    match Py.split1 SEP card with
    | [raw; sig] =>
        if negb (length raw =? 16)%nat || negb (length sig =? 10)%nat
        then Ok (rejected ErrLength)
        else
          expected_sign ← sign raw;
          same ← Py.compare_digest sig expected_sign;
          if negb same then Ok (rejected ErrSignature)
          else
            match lookup_card f db card with
            | Ok v => Ok v
            | Raise e =>
                if is_sqlite3_error e then Ok (rejected ErrDatabase)
                else Raise e
            end
    | _ => Raise ValueError
    end.

(** The [try] block of [mark_as_used]: the UPDATE, the commit, and
    [conn.total_changes > 0]. A fault while the statement runs strikes
    when the statement is prepared, before the token is bound to it; an
    UPDATE that is not committed is rolled back when the connection
    closes. *)
Definition update_card (f : fault) (now : Z) (db : table) (card : str)
    : result (bool * table) :=
  match f with
  | ExecuteFault => Raise Sqlite3Error
  | NoFault | ConnectFault | CommitFault =>
      _ ← Sql.bind_text card;
      match f with
      | CommitFault => Raise Sqlite3Error
      | _ =>
          let '(db', total_changes) := Sql.update_used now card db in
          Ok ((0 <? total_changes)%Z, db')
      end
  end.

(** [mark_as_used(card)]. The connection is opened by the [with] before
    the [try] is entered: a failure of [connect] is not caught. *)
Definition mark_as_used (f : fault) (now : Z) (db : table) (card : str)
    : result bool * table :=
  match f with
  | ConnectFault => (Raise Sqlite3Error, db)
  | _ =>
      match update_card f now db card with
      | Ok (answer, db') => (Ok answer, db')
      | Raise e =>
          if is_sqlite3_error e then (Ok false, db) else (Raise e, db)
      end
  end.

(** [get_card_stats()]. An aggregate query without GROUP BY yields one
    row even over an empty table, so [dict(stats)] is what is returned. *)
Definition get_card_stats (f : fault) (db : table) : result stats :=
  match f with
  | ConnectFault | ExecuteFault => Raise Sqlite3Error
  | NoFault | CommitFault =>
      let rs := Sql.rows db in
      Ok (Stats (Z.of_nat (length rs))
                (Sql.sum (map (fun r => Z.b2z (is_used r)) rs))
                (Sql.sum (map usage_count rs))
                (Sql.min (map created_at rs))
                (Sql.max (map created_at rs)))
  end.

End WithKey.

End CardSystem.

Arguments CardSystem.lookup_card : simpl never.
Arguments CardSystem.update_card : simpl never.

(** ** The engine as a transition system over the table *)

(** One call of a public operation, with what its environment supplies. *)
Inductive op :=
| Generate (faults : nat -> fault) (tape : nat -> nat) (now : Z)
    (batch_size : Z)
| Verify (f : fault) (card : list N)
| Redeem (f : fault) (now : Z) (card : list N)
| GetStats (f : fault).

(** The table after the call. [verify_card] and [get_card_stats] only run
    SELECT statements and never commit. *)
Definition step (hmac_sha3_256 : list byte -> list byte -> list byte)
    (key : list byte) (o : op) (db : table) : table :=
  match o with
  | Generate faults tape now batch_size =>
      (CardSystem.generate_card hmac_sha3_256 key faults tape now db
         batch_size).2
  | Verify _ _ => db
  | Redeem f now card => (CardSystem.mark_as_used f now db card).2
  | GetStats _ => db
  end.

(** The tables the engine can reach from the empty one. *)
Inductive reachable (hmac_sha3_256 : list byte -> list byte -> list byte)
    (key : list byte) : table -> Prop :=
| reachable_init : reachable hmac_sha3_256 key ∅
| reachable_step o db :
    reachable hmac_sha3_256 key db ->
    reachable hmac_sha3_256 key (step hmac_sha3_256 key o db).

(** The invariant of a record: the counter is not negative and [used_at]
    is set exactly when it is positive. *)
Definition row_ok (r : row) : Prop :=
  (0 <= usage_count r)%Z /\ (is_Some (used_at r) <-> (0 < usage_count r)%Z).

#[global] Instance row_ok_dec r : Decision (row_ok r).
Proof. unfold row_ok. apply _. Defined.

Definition db_ok (db : table) : Prop := map_Forall (fun _ r => row_ok r) db.

#[global] Instance db_ok_dec db : Decision (db_ok db).
Proof. unfold db_ok. apply _. Defined.

(** A row created by [generate_card], as the INSERT leaves it. *)
Definition fresh_row (r : row) : Prop :=
  is_used r = false /\ used_at r = None /\ usage_count r = 0%Z.

(** The sum of a list of integers. *)
Definition list_sum (xs : list Z) : Z := foldr Z.add 0%Z xs.

(** The sum of a column over the table. *)
Definition column_sum (f : row -> Z) (db : table) : Z :=
  map_fold (fun _ r acc => (f r + acc)%Z) 0%Z db.



(** Lowercase hexadecimal digits. *)
Definition is_lower_hex (c : N) : Prop :=
  (48 <= c <= 57) \/ (97 <= c <= 102).

(** [s] with the character at index [i] replaced by [c]. *)
Definition replace_char (i : nat) (c : N) (s : list N) : list N := <[i := c]> s.

(** The number of separators in a token. *)
Definition count_sep (card : list N) : nat :=
  length (filter (fun c => c = CardSystem.SEP) card).

(** What [build_cards] puts in the list: a raw part read from the tape,
    its signature, and the two joined by the separator. *)
Definition minted (hmac_sha3_256 : list byte -> list byte -> list byte)
    (key : list byte) (tape : nat -> nat) (c : list N * list N * list N)
    : Prop :=
  exists pos, c.1.2 = CardSystem.random_raw tape pos /\
              CardSystem.sign hmac_sha3_256 key c.1.2 = Ok c.2 /\
              c.1.1 = c.1.2 ++ CardSystem.SEP :: c.2.

(** The batch that attempt number [i] of [generate_card] builds, and what
    inserting it does: the loop starts attempt [i] at tape position
    [i * (16 * n)]. *)
Definition batch_of (hmac_sha3_256 : list byte -> list byte -> list byte)
    (key : list byte) (tape : nat -> nat) (n i : nat)
    : result (list (list N * list N * list N)) :=
  CardSystem.build_cards hmac_sha3_256 key n tape (i * (16 * n)).

Definition attempt_outcome
    (hmac_sha3_256 : list byte -> list byte -> list byte) (key : list byte)
    (faults : nat -> fault) (tape : nat -> nat) (now : Z) (n : nat)
    (db : table) (i : nat) : result table :=
  cards ← batch_of hmac_sha3_256 key tape n i;
  CardSystem.insert_batch (faults i) now cards db.

(** [cards[0][0]]. *)
Definition first_card_id (cards : list (list N * list N * list N))
    : result (list N) :=
  match cards with
  | c :: _ => Ok c.1.1
  | [] => Raise IndexError
  end.

(** ** A concrete instance, to run the definitions *)

(** A stand-in for the keyed hash: 32 bytes that depend on the key and on
    the message. Nothing is assumed of it but its length. *)
Definition toy_hmac (k msg : list byte) : list byte :=
  let s := fold_left (fun acc b => (acc * 33 + Byte.to_N b + 1) mod 251)
                     (k ++ msg) 7 in
  map (fun i => Py.byte_of (s + 17 * N.of_nat i)) (seq 0 32).

Definition toy_key : list byte := [x2a; x07; xc3].

(** A tape that always draws the character at index [i] of [charset]. *)
Definition const_tape (i : nat) : nat -> nat := fun _ => i.

Definition no_faults : nat -> fault := fun _ => NoFault.

(** A tape that draws [A] for the first four raw parts and [B] from the
    fifth on. *)
Definition toy_retry_tape (p : nat) : nat :=
  if (p / 16 <? 4)%nat then 0%nat else 1%nat.

(** A table with one card, minted from the tape that always draws [A]. *)
Definition toy_db : gmap (list N) row :=
  (CardSystem.generate_card toy_hmac toy_key no_faults (const_tape 0) 100 ∅
     1).2.

Definition toy_card : list N := lit "AAAAAAAAAAAAAAAA#c4d5e6f708".

(** ** Start-up and the script *)

(** The database file [DATABASE_PATH]: each table is absent ([None])
    until a CREATE TABLE has run. [secrets] maps a name to its value. *)
Record database := Database {
  cards_table : option (gmap (list N) row);
  secrets_table : option (gmap (list N) (list byte))
}.

(** The name under which the key is kept. *)
Definition HMAC_KEY : list N := lit "hmac_key".

(** [secrets.token_bytes(n)], reading the entropy source from its start. *)
Definition token_bytes (entropy : nat -> byte) (n : nat) : list byte :=
  map entropy (seq 0 n).

(** [_init_db()]: [executescript(INIT_SCRIPT)] creates the table [cards]
    when it is absent (CREATE TABLE IF NOT EXISTS; the indexes do not
    change what the queries answer). The script runs outside a
    transaction, so the [commit] that follows has nothing to write.
    Nothing is caught. *)
Definition init_db (f : fault) (d : database) : result unit * database :=
  match f with
  | ConnectFault | ExecuteFault => (Raise Sqlite3Error, d)
  | NoFault | CommitFault =>
      (Ok tt, Database (Some (default ∅ (cards_table d))) (secrets_table d))
  end.

(** [_load_or_generate_key()]: create the table [secrets] when absent
    (at once: a CREATE TABLE opens no transaction), return the value
    stored under ['hmac_key'] when there is one, and otherwise draw 32
    bytes, insert them, commit and return them. A fault while a statement
    runs strikes the first one; an INSERT that is not committed is rolled
    back. Nothing is caught. *)
Definition load_or_generate_key (f : fault) (entropy : nat -> byte)
    (d : database) : result (list byte) * database :=
  match f with
  | ConnectFault | ExecuteFault => (Raise Sqlite3Error, d)
  | NoFault | CommitFault =>
      let secrets := default ∅ (secrets_table d) in
      let d1 := Database (cards_table d) (Some secrets) in
      match secrets !! HMAC_KEY with
      | Some value => (Ok value, d1)
      | None =>
          let new_key := token_bytes entropy 32 in
          match f with
          | CommitFault => (Raise Sqlite3Error, d1)
          | _ =>
              (Ok new_key,
               Database (cards_table d)
                        (Some (<[HMAC_KEY := new_key]> secrets)))
          end
      end
  end.

(** [CardSystem()], that is [__init__]: [_init_db()], then
    [self.key = _load_or_generate_key()]. The object is its key. *)
Definition new_card_system (f_init f_key : fault) (entropy : nat -> byte)
    (d : database) : result (list byte) * database :=
  match init_db f_init d with
  | (Raise e, d1) => (Raise e, d1)
  | (Ok _, d1) => load_or_generate_key f_key entropy d1
  end.

(** What the script under [if __name__ == "__main__"] prints, one
    constructor per [print]:
    - [OutNewCard]      "生成新卡密: {new_card}"
    - [OutVerification] "验证结果: {verification}"
    - [OutNotMarkedYet] "卡密尚未标记为使用"
    - [OutStatsHeader]  "\n系统统计:"
    - [OutStats]        the dictionary of [get_card_stats]
    - [OutPrompt]       "输入卡密来验证:"
    - [OutNotInStore]   "卡密未在库中"
    - [OutAskMark]      "是否标记为使用？：(y or n)"
    - [OutMarked]       "卡密已在库中（十秒后关闭）"
    - [OutNotMarked]    "卡密尚未标记在库中（十秒后关闭）" *)
Inductive output :=
| OutNewCard (card : list N)
| OutVerification (v : CardSystem.verification)
| OutNotMarkedYet
| OutStatsHeader
| OutStats (s : CardSystem.stats)
| OutPrompt
| OutNotInStore
| OutAskMark
| OutMarked
| OutNotMarked.

(** What the environment supplies to one run of the script after the
    object is built: the faults of each connection, the tape and the clock
    of [generate_card], the clock of [mark_as_used]. *)
Record session_env := SessionEnv {
  gen_faults : nat -> fault;
  gen_tape : nat -> nat;
  gen_now : Z;
  verify_new_fault : fault;
  stats_fault : fault;
  verify_input_fault : fault;
  mark_fault : fault;
  mark_now : Z
}.

(** The script from [system.generate_card()] on, over the table [cards]:
    [n] and [s] are the two lines read by [input()] (the second is read
    only when the question is asked). The result is what was printed,
    how the run ended, and the table. [time.sleep] changes nothing that
    is modelled. The run has the table to itself: no other process
    writes to it before the run ends ([session_shared] below lifts
    that). *)
Definition session (hmac_sha3_256 : list byte -> list byte -> list byte)
    (key : list byte) (e : session_env) (t : gmap (list N) row)
    (n s : list N) : list output * result unit * gmap (list N) row :=
  match CardSystem.generate_card hmac_sha3_256 key (gen_faults e) (gen_tape e)
          (gen_now e) t 100 with
  | (Raise x, t1) => ([], Raise x, t1)
  | (Ok new_card, t1) =>
      match CardSystem.verify_card hmac_sha3_256 key (verify_new_fault e) t1
              new_card with
      | Raise x => ([OutNewCard new_card], Raise x, t1)
      | Ok verification =>
          let out1 := [OutNewCard new_card; OutVerification verification;
                       OutNotMarkedYet; OutStatsHeader] in
          match CardSystem.get_card_stats (stats_fault e) t1 with
          | Raise x => (out1, Raise x, t1)
          | Ok st =>
              let out2 := out1 ++ [OutStats st; OutPrompt] in
              match CardSystem.verify_card hmac_sha3_256 key
                      (verify_input_fault e) t1 n with
              | Raise x => (out2, Raise x, t1)
              | Ok v =>
                  let out3 := out2 ++ [OutVerification v] in
                  if CardSystem.valid v
                     && negb (default false (CardSystem.v_is_used v))
                  then
                    let out4 := out3 ++ [OutNotInStore; OutAskMark] in
                    if bool_decide (s = lit "y") then
                      match CardSystem.mark_as_used (mark_fault e)
                              (mark_now e) t1 n with
                      | (Raise x, t2) => (out4, Raise x, t2)
                      | (Ok _, t2) => (out4 ++ [OutMarked], Ok tt, t2)
                      end
                    else if bool_decide (s = lit "n") then
                      (out4 ++ [OutNotMarked], Ok tt, t1)
                    else (out4, Ok tt, t1)
                  else (out3, Ok tt, t1)
              end
          end
      end
  end.

(** The whole script: build the object, then run the session on the
    table [cards]. Were the table absent, [generate_card] would raise a
    [sqlite3.Error] that is no [IntegrityError]. *)
Definition main (hmac_sha3_256 : list byte -> list byte -> list byte)
    (f_init f_key : fault) (entropy : nat -> byte) (e : session_env)
    (d : database) (n s : list N) : list output * result unit * database :=
  match new_card_system f_init f_key entropy d with
  | (Raise x, d1) => ([], Raise x, d1)
  | (Ok key, d1) =>
      match cards_table d1 with
      | None => ([], Raise Sqlite3Error, d1)
      | Some t =>
          let '(out, r, t') := session hmac_sha3_256 key e t n s in
          (out, r, Database (Some t') (secrets_table d1))
      end
  end.

(** The databases that runs of the script can leave, starting from a
    file that does not exist yet, when the runs come one after the other:
    each run starts on what the run before it left, and no two runs
    overlap. *)
Inductive script_reachable
    (hmac_sha3_256 : list byte -> list byte -> list byte)
    : database -> Prop :=
| script_start : script_reachable hmac_sha3_256 (Database None None)
| script_run f_init f_key entropy e d n s :
    script_reachable hmac_sha3_256 d ->
    script_reachable hmac_sha3_256
      (main hmac_sha3_256 f_init f_key entropy e d n s).2.

(** The key that the database holds, if any. *)
Definition stored_key (d : database) : option (list byte) :=
  default ∅ (secrets_table d) !! HMAC_KEY.

(** What other processes write to the table [cards] while a run of the
    script is between two of its own connections: after [generate_card],
    after the first [verify_card], after [get_card_stats] (the script
    waits on [input()]), and after [verify_card(n)] (the script sleeps
    three seconds and waits on [input()] before [mark_as_used(n)]). A
    write that arrives during one of the calls is taken to land before or
    after that call. *)
Record overlap := Overlap {
  after_generate : gmap (list N) row -> gmap (list N) row;
  after_verify_new : gmap (list N) row -> gmap (list N) row;
  after_stats : gmap (list N) row -> gmap (list N) row;
  after_verify_input : gmap (list N) row -> gmap (list N) row
}.

(** No other process writes. *)
Definition alone : overlap :=
  Overlap (fun t => t) (fun t => t) (fun t => t) (fun t => t).

(** The script from [system.generate_card()] on, over a table [cards]
    that other processes write to as well: each connection of the run
    sees what the others wrote since the connection before it. *)
Definition session_shared
    (hmac_sha3_256 : list byte -> list byte -> list byte)
    (key : list byte) (e : session_env) (ov : overlap)
    (t : gmap (list N) row) (n s : list N)
    : list output * result unit * gmap (list N) row :=
  match CardSystem.generate_card hmac_sha3_256 key (gen_faults e) (gen_tape e)
          (gen_now e) t 100 with
  | (Raise x, t1) => ([], Raise x, t1)
  | (Ok new_card, t1) =>
      let t2 := after_generate ov t1 in
      match CardSystem.verify_card hmac_sha3_256 key (verify_new_fault e) t2
              new_card with
      | Raise x => ([OutNewCard new_card], Raise x, t2)
      | Ok verification =>
          let out1 := [OutNewCard new_card; OutVerification verification;
                       OutNotMarkedYet; OutStatsHeader] in
          let t3 := after_verify_new ov t2 in
          match CardSystem.get_card_stats (stats_fault e) t3 with
          | Raise x => (out1, Raise x, t3)
          | Ok st =>
              let out2 := out1 ++ [OutStats st; OutPrompt] in
              let t4 := after_stats ov t3 in
              match CardSystem.verify_card hmac_sha3_256 key
                      (verify_input_fault e) t4 n with
              | Raise x => (out2, Raise x, t4)
              | Ok v =>
                  let out3 := out2 ++ [OutVerification v] in
                  if CardSystem.valid v
                     && negb (default false (CardSystem.v_is_used v))
                  then
                    let out4 := out3 ++ [OutNotInStore; OutAskMark] in
                    if bool_decide (s = lit "y") then
                      let t5 := after_verify_input ov t4 in
                      match CardSystem.mark_as_used (mark_fault e)
                              (mark_now e) t5 n with
                      | (Raise x, t6) => (out4, Raise x, t6)
                      | (Ok _, t6) => (out4 ++ [OutMarked], Ok tt, t6)
                      end
                    else if bool_decide (s = lit "n") then
                      (out4 ++ [OutNotMarked], Ok tt, t4)
                    else (out4, Ok tt, t4)
                  else (out3, Ok tt, t4)
              end
          end
      end
  end.

(** A table where no card was redeemed more than once: the counter is 0
    or 1 and [is_used] is set exactly when it is 1. *)
Definition single_use (t : gmap (list N) row) : Prop :=
  map_Forall (fun _ r =>
    (usage_count r = 0%Z /\ is_used r = false) \/
    (usage_count r = 1%Z /\ is_used r = true)) t.

(** Writes of other processes that keep every card redeemed at most
    once. *)
Definition keeps_single_use
    (w : gmap (list N) row -> gmap (list N) row) : Prop :=
  forall t, single_use t -> single_use (w t).

(** Writes of other processes that leave the row under [n] as it is. *)
Definition leaves_row (n : list N)
    (w : gmap (list N) row -> gmap (list N) row) : Prop :=
  forall t r, t !! n = Some r -> w t !! n = Some r.

(** The flag, the timestamp and the counter of a record agree. *)
Definition row_used_ok (r : row) : Prop :=
  (is_used r = true <-> (0 < usage_count r)%Z) /\
  (is_Some (used_at r) <-> (0 < usage_count r)%Z) /\
  (0 <= usage_count r)%Z.

(** A row keeps its key: the key is the raw part, the separator and the
    signature of the row, the signature is the one of the raw part, and
    the raw part is 16 characters of [charset]. *)
Definition row_signed (hmac_sha3_256 : list byte -> list byte -> list byte)
    (key : list byte) (k : list N) (r : row) : Prop :=
  k = raw_part r ++ CardSystem.SEP :: signature r /\
  CardSystem.sign hmac_sha3_256 key (raw_part r) = Ok (signature r) /\
  length (raw_part r) = 16%nat /\
  Forall (fun c => c ∈ CardSystem.charset) (raw_part r).

(** The range of an SQLite INTEGER. Within it the arithmetic of the
    storage layer is exact; a counter that would leave it is turned into
    a REAL by the UPDATE, and a [SUM] that would leave it is an error. *)
Definition INT64_MAX : Z := (2 ^ 63 - 1)%Z.
Definition INT64_MIN : Z := (- 2 ^ 63)%Z.
Definition fits_int64 (z : Z) : Prop := (INT64_MIN <= z <= INT64_MAX)%Z.

(** The row that the UPDATE of [mark_as_used] writes in place of [r]. *)
Definition redeemed (now : Z) (r : row) : row :=
  Row (raw_part r) (signature r) (created_at r) true (Some now)
      (usage_count r + 1).

(** [n] redemptions in a row of the same token, at the times [nows]. *)
Fixpoint redeem_many (nows : list Z) (db : gmap (list N) row) (card : list N)
    : gmap (list N) row :=
  match nows with
  | [] => db
  | now :: rest =>
      redeem_many rest (CardSystem.mark_as_used NoFault now db card).2 card
  end.

(** A surrogate code point. *)
Definition is_surrogate (c : N) : Prop := 55296 <= c <= 57343.

(** An entropy source for the key, and an environment without faults. *)
Definition toy_entropy (i : nat) : byte := Py.byte_of (N.of_nat (7 * i + 3)).

(** A tape whose raw parts differ from one another: the first two
    characters of raw part number [j] spell [j]. *)
Definition toy_tape (p : nat) : nat :=
  match (p mod 16)%nat with
  | O => ((p / 16) mod 40)%nat
  | S O => ((p / 16) / 40)%nat
  | i => i
  end.

Definition toy_env : session_env :=
  SessionEnv no_faults toy_tape 500 NoFault NoFault NoFault NoFault 600.

(** Another process adds a card while the run waits for the answer to
    its question. *)
Definition toy_overlap : overlap :=
  Overlap (fun t => t) (fun t => t) (fun t => t)
    (fun t =>
       (CardSystem.generate_card toy_hmac toy_key no_faults (const_tape 1) 550
          t 1).2).


(** Two runs of the script, one after the other, on a file that did not
    exist: the first enters no card; the second enters the first card
    that the first run generated, and answers ["y"]. *)
Definition toy_first_run : database :=
  (main toy_hmac NoFault NoFault toy_entropy toy_env (Database None None)
     (lit "zzz") (lit "y")).2.

Definition toy_second_card : list N := lit "AACDEFGHJKLMNPQR#b5c6d7e8f9".

Definition toy_second_run : database :=
  (main toy_hmac NoFault NoFault (fun _ => x00) toy_env toy_first_run
     toy_second_card (lit "y")).2.

(** ** Proof steps *)

(** Unfolds the sequencing of [result] and splits on the outcome of the
    first call in the goal. *)
Ltac result_step :=
  unfold mbind, result_bind in *;
  match goal with
  | H : context [match ?r with Ok _ => _ | Raise _ => _ end] |- _ =>
      destruct r eqn:?; simplify_eq/=
  | |- context [match ?r with Ok _ => _ | Raise _ => _ end] =>
      destruct r eqn:?; simplify_eq/=
  end.

(** Membership in a list written out. *)
Ltac in_list :=
  repeat first [apply list_elem_of_here | apply list_elem_of_further].


(** * Properties *)

(** ** Python strings *)

Section PyFacts.

Lemma contains_true (c : N) (s : list N) : Py.contains c s = true <-> c ∈ s.
Proof.
  unfold Py.contains. rewrite existsb_exists. split.
  - intros (x & Hx & Heq). apply N.eqb_eq in Heq. subst.
    by apply list_elem_of_In.
  - intros Hin. exists c. split; [by apply list_elem_of_In | apply N.eqb_refl].
Qed.

Lemma contains_false (c : N) (s : list N) : Py.contains c s = false <-> c ∉ s.
Proof.
  rewrite <- contains_true. destruct (Py.contains c s); naive_solver.
Qed.

(** Splitting cuts at the first separator. *)
Lemma split1_first (sep : N) (a b : list N) :
  sep ∉ a -> Py.split1 sep (a ++ sep :: b) = [a; b].
Proof.
  induction a as [|c a IH]; intros Hnot; simpl.
  - by rewrite N.eqb_refl.
  - apply not_elem_of_cons in Hnot as [Hne Hnot].
    destruct (N.eqb_spec c sep) as [->|_]; [done|].
    by rewrite IH.
Qed.

Lemma split1_absent (sep : N) (s : list N) :
  sep ∉ s -> Py.split1 sep s = [s].
Proof.
  induction s as [|c s IH]; intros Hnot; simpl; [done|].
  apply not_elem_of_cons in Hnot as [Hne Hnot].
  destruct (N.eqb_spec c sep) as [->|_]; [done|].
  by rewrite IH.
Qed.

(** A string that holds the separator decomposes around its first one. *)
Lemma first_sep_decompose (sep : N) (s : list N) :
  sep ∈ s -> exists a b, s = a ++ sep :: b /\ sep ∉ a.
Proof.
  induction s as [|c s IH]; intros Hin; [by apply elem_of_nil in Hin|].
  destruct (decide (c = sep)) as [->|Hne].
  - exists [], s. split; [done | apply not_elem_of_nil].
  - apply elem_of_cons in Hin as [->|Hin]; [done|].
    destruct (IH Hin) as (a & b & -> & Ha).
    exists (c :: a), b. split; [done|].
    apply not_elem_of_cons. by split.
Qed.

Lemma hexdigit_lower_hex (d : N) : d < 16 -> is_lower_hex (Py.hexdigit d).
Proof.
  intros Hd. unfold is_lower_hex, Py.hexdigit.
  destruct (N.ltb_spec d 10); lia.
Qed.

Lemma byte_to_N_bound (b : byte) : Byte.to_N b < 256.
Proof. pose proof (Byte.to_N_bounded b). lia. Qed.

(** Every character of a hexadecimal rendering is a lowercase digit. *)
Lemma hex_lower_hex (d : list byte) : Forall is_lower_hex (Py.hex d).
Proof.
  induction d as [|b d IH]; simpl; [constructor|].
  pose proof (byte_to_N_bound b) as Hb.
  constructor; [|constructor; [|exact IH]]; apply hexdigit_lower_hex.
  - apply N.Div0.div_lt_upper_bound. lia.
  - apply N.mod_lt. lia.
Qed.

Lemma length_hex (d : list byte) : length (Py.hex d) = (2 * length d)%nat.
Proof. induction d as [|b d IH]; simpl; lia. Qed.

Lemma lower_hex_ascii (s : list N) : Forall is_lower_hex s -> Py.isascii s = true.
Proof.
  unfold Py.isascii. intros H. apply forallb_forall. intros c Hc.
  apply list_elem_of_In in Hc. rewrite Forall_forall in H.
  specialize (H c Hc). unfold is_lower_hex in H. apply N.ltb_lt. lia.
Qed.

Lemma lower_hex_no_sep (s : list N) :
  Forall is_lower_hex s -> CardSystem.SEP ∉ s.
Proof.
  intros H Hin. rewrite Forall_forall in H. specialize (H _ Hin).
  unfold is_lower_hex, CardSystem.SEP in H. lia.
Qed.

(** An ASCII string has a UTF-8 encoding. *)
Lemma encode_ascii (s : list N) :
  Py.isascii s = true -> exists b, Py.encode s = Some b.
Proof.
  induction s as [|c s IH]; simpl; intros H; [by eexists|].
  apply andb_prop in H as [Hc Hs].
  destruct (IH Hs) as [bs ->]. unfold Py.utf8_char. rewrite Hc. by eexists.
Qed.

Lemma isascii_app (a b : list N) :
  Py.isascii (a ++ b) = Py.isascii a && Py.isascii b.
Proof. unfold Py.isascii. apply forallb_app. Qed.

Lemma compare_digest_refl (s : list N) :
  Py.isascii s = true -> Py.compare_digest s s = Ok true.
Proof.
  intros H. unfold Py.compare_digest, Py.str_eqb. rewrite H. simpl.
  by rewrite bool_decide_eq_true_2.
Qed.

Lemma compare_digest_ne (a b : list N) :
  Py.isascii a = true -> Py.isascii b = true -> a <> b ->
  Py.compare_digest a b = Ok false.
Proof.
  intros Ha Hb Hne. unfold Py.compare_digest, Py.str_eqb. rewrite Ha, Hb.
  simpl. by rewrite bool_decide_eq_false_2.
Qed.

Lemma compare_digest_non_ascii (a b : list N) :
  Py.isascii a = false -> Py.compare_digest a b = Raise TypeError.
Proof. intros Ha. unfold Py.compare_digest. by rewrite Ha. Qed.

End PyFacts.

(** ** The storage layer *)

Section SqlFacts.

Implicit Types (db : gmap (list N) row) (k : list N).

Lemma insert_card_Ok now k raw sig db db' :
  Sql.insert_card now (k, raw, sig) db = Ok db' ->
  db !! k = None /\ db' = <[k := Row raw sig now false None 0]> db.
Proof.
  unfold Sql.insert_card. intros H. repeat result_step.
  destruct (db !! k) eqn:Hk; by simplify_eq.
Qed.

Lemma insert_card_taken now k raw sig db r :
  db !! k = Some r ->
  Py.isascii k = true -> Py.isascii raw = true -> Py.isascii sig = true ->
  Sql.insert_card now (k, raw, sig) db = Raise IntegrityError.
Proof.
  intros Hk Hak Har Has. unfold Sql.insert_card, Sql.bind_text.
  destruct (encode_ascii _ Hak) as [? ->].
  destruct (encode_ascii _ Har) as [? ->].
  destruct (encode_ascii _ Has) as [? ->]. simpl. by rewrite Hk.
Qed.

Lemma insert_card_free now k raw sig db :
  db !! k = None ->
  Py.isascii k = true -> Py.isascii raw = true -> Py.isascii sig = true ->
  Sql.insert_card now (k, raw, sig) db
  = Ok (<[k := Row raw sig now false None 0]> db).
Proof.
  intros Hk Hak Har Has. unfold Sql.insert_card, Sql.bind_text.
  destruct (encode_ascii _ Hak) as [? ->].
  destruct (encode_ascii _ Har) as [? ->].
  destruct (encode_ascii _ Has) as [? ->]. simpl. by rewrite Hk.
Qed.

Lemma executemany_cons now c cards db :
  Sql.executemany_insert now (c :: cards) db
  = match Sql.insert_card now c db with
    | Ok db' => Sql.executemany_insert now cards db'
    | Raise e => Raise e
    end.
Proof. reflexivity. Qed.

(** Rows that were in the table stay as they are. *)
Lemma executemany_keeps now cards db db' k r :
  Sql.executemany_insert now cards db = Ok db' ->
  db !! k = Some r -> db' !! k = Some r.
Proof.
  revert db. induction cards as [|[[k0 raw] sig] cards IH]; intros db H Hk;
    simpl in H; [by simplify_eq|].
  result_step. apply insert_card_Ok in Heqr0 as [Hfree ->].
  apply (IH _ H). rewrite lookup_insert_ne; [done|]. by intros ->; simplify_eq.
Qed.

(** Every triple of the batch becomes a row with the defaults of the
    schema. *)
Lemma executemany_inserted now cards db db' k raw sig :
  Sql.executemany_insert now cards db = Ok db' ->
  (k, raw, sig) ∈ cards ->
  db' !! k = Some (Row raw sig now false None 0).
Proof.
  revert db. induction cards as [|[[k0 raw0] sig0] cards IH]; intros db H Hin;
    simpl in H; [by apply elem_of_nil in Hin|].
  result_step. apply insert_card_Ok in Heqr as [Hfree ->].
  apply elem_of_cons in Hin as [Heq|Hin].
  - simplify_eq. eapply executemany_keeps; [done|]. apply lookup_insert_eq.
  - by eapply IH.
Qed.

(** A row of the new table was there before or comes from the batch. *)
Lemma executemany_origin now cards db db' k r :
  Sql.executemany_insert now cards db = Ok db' ->
  db' !! k = Some r ->
  db !! k = Some r \/
  (db !! k = None /\ exists raw sig,
      (k, raw, sig) ∈ cards /\ r = Row raw sig now false None 0).
Proof.
  revert db. induction cards as [|[[k0 raw0] sig0] cards IH]; intros db H Hk;
    simpl in H; [simplify_eq; by left|].
  result_step. apply insert_card_Ok in Heqr0 as [Hfree ->].
  destruct (IH _ H Hk) as [Hold|(Hnone & raw & sig & Hin & ->)].
  - destruct (decide (k0 = k)) as [->|Hne].
    + rewrite lookup_insert_eq in Hold. simplify_eq. right. split; [done|].
      exists raw0, sig0. split; [apply elem_of_cons; by left | done].
    + rewrite lookup_insert_ne in Hold by done. by left.
  - right. destruct (decide (k0 = k)) as [->|Hne].
    + by rewrite lookup_insert_eq in Hnone.
    + rewrite lookup_insert_ne in Hnone by done. split; [done|].
      exists raw, sig. split; [apply elem_of_cons; by right | done].
Qed.

(** A batch that goes in adds as many rows as it has cards. *)
Lemma executemany_size now cards db db' :
  Sql.executemany_insert now cards db = Ok db' ->
  size db' = (size db + length cards)%nat.
Proof.
  revert db. induction cards as [|[[k0 raw0] sig0] cards IH]; intros db H;
    simpl in H; [simplify_eq; simpl; lia|].
  result_step. apply insert_card_Ok in Heqr as [Hfree ->].
  rewrite (IH _ H), map_size_insert_None by done. simpl. lia.
Qed.

Lemma update_used_hit now card db r :
  db !! card = Some r ->
  Sql.update_used now card db
  = (<[card := Row (raw_part r) (signature r) (created_at r) true (Some now)
                   (usage_count r + 1)]> db, 1%Z).
Proof. intros H. unfold Sql.update_used. by rewrite H. Qed.

Lemma update_used_miss now card db :
  db !! card = None -> Sql.update_used now card db = (db, 0%Z).
Proof. intros H. unfold Sql.update_used. by rewrite H. Qed.

End SqlFacts.

(** ** Card construction *)

Import CardSystem.

Lemma charset_length : length charset = 40%nat.
Proof. reflexivity. Qed.

Lemma charset_isascii : Py.isascii charset = true.
Proof. reflexivity. Qed.

Lemma choice_charset (r : nat) : Py.choice charset r ∈ charset.
Proof.
  unfold Py.choice. apply list_elem_of_In, nth_In.
  rewrite charset_length. apply Nat.mod_upper_bound. lia.
Qed.

Lemma isascii_Forall (s : list N) :
  Py.isascii s = true <-> Forall (fun c => c < 128) s.
Proof.
  unfold Py.isascii. rewrite forallb_forall, Forall_forall.
  split; intros H c Hc.
  - apply N.ltb_lt, H. by apply list_elem_of_In.
  - apply N.ltb_lt, H. by apply list_elem_of_In.
Qed.

Lemma elem_of_isascii (c : N) (s : list N) :
  Py.isascii s = true -> c ∈ s -> c < 128.
Proof.
  rewrite isascii_Forall, Forall_forall. intros H Hc. by apply H.
Qed.

Section CardFacts.

Variable hmac_sha3_256 : list byte -> list byte -> list byte.
Variable key : list byte.

Local Abbreviation sign := (CardSystem.sign hmac_sha3_256 key).
Local Abbreviation build_cards := (CardSystem.build_cards hmac_sha3_256 key).
Local Abbreviation minted := (minted hmac_sha3_256 key).

Lemma random_raw_length tape pos : length (random_raw tape pos) = 16%nat.
Proof. reflexivity. Qed.

Lemma random_raw_charset tape pos c :
  c ∈ random_raw tape pos -> c ∈ charset.
Proof.
  unfold random_raw. intros Hc. apply list_elem_of_In, in_map_iff in Hc.
  destruct Hc as (i & <- & _). apply choice_charset.
Qed.

Lemma random_raw_isascii tape pos : Py.isascii (random_raw tape pos) = true.
Proof.
  apply isascii_Forall, Forall_forall. intros c Hc.
  eapply elem_of_isascii; [apply charset_isascii|].
  by eapply random_raw_charset.
Qed.

(** The signature of an encodable raw part is the first ten characters
    of the hexadecimal digest. *)
Lemma sign_Ok raw sig :
  sign raw = Ok sig ->
  exists msg, Py.encode raw = Some msg /\
              sig = take 10 (Py.hex (hmac_sha3_256 key msg)).
Proof.
  unfold CardSystem.sign. destruct (Py.encode raw) as [msg|]; [|done].
  intros [= <-]. by exists msg.
Qed.

Lemma sign_ascii_total raw :
  Py.isascii raw = true -> exists sig, sign raw = Ok sig.
Proof.
  intros H. destruct (encode_ascii _ H) as [msg Hmsg].
  unfold CardSystem.sign. rewrite Hmsg. by eexists.
Qed.

Lemma sign_lower_hex raw sig : sign raw = Ok sig -> Forall is_lower_hex sig.
Proof.
  intros (msg & _ & ->)%sign_Ok. apply Forall_take, hex_lower_hex.
Qed.

Lemma sign_isascii raw sig : sign raw = Ok sig -> Py.isascii sig = true.
Proof. intros H. by eapply lower_hex_ascii, sign_lower_hex. Qed.

(** With a 32-byte digest the signature has ten characters. *)
Lemma sign_length raw sig :
  (forall k m, length (hmac_sha3_256 k m) = 32%nat) ->
  sign raw = Ok sig -> length sig = 10%nat.
Proof.
  intros Hdigest (msg & _ & ->)%sign_Ok.
  rewrite length_take, length_hex, Hdigest. lia.
Qed.

Lemma build_cards_total n tape pos :
  exists cards, build_cards n tape pos = Ok cards /\ length cards = n /\
                Forall (minted tape) cards.
Proof.
  revert pos. induction n as [|n IH]; intros pos.
  - exists []. by repeat split.
  - destruct (IH (pos + 16)%nat) as (rest & Hrest & Hlen & Hall).
    destruct (sign_ascii_total _ (random_raw_isascii tape pos)) as [sig Hsig].
    exists ((random_raw tape pos ++ SEP :: sig, random_raw tape pos, sig) :: rest).
    split; [|split].
    + simpl. rewrite Hsig. simpl. by rewrite Hrest.
    + simpl. by rewrite Hlen.
    + constructor; [|done]. by exists pos.
Qed.

Lemma minted_isascii tape c :
  minted tape c ->
  Py.isascii c.1.1 = true /\ Py.isascii c.1.2 = true /\ Py.isascii c.2 = true.
Proof.
  intros (pos & Hraw & Hsig & Hid).
  assert (Py.isascii c.1.2 = true) as Hr by (rewrite Hraw; apply random_raw_isascii).
  assert (Py.isascii c.2 = true) as Hs by (by eapply sign_isascii).
  repeat split; [|done..].
  rewrite Hid, isascii_app, Hr. simpl. by rewrite Hs.
Qed.

End CardFacts.

(** ** Generation: the retry loop *)

Section GenerateFacts.

Variable hmac_sha3_256 : list byte -> list byte -> list byte.
Variable key : list byte.

Local Abbreviation build_cards := (CardSystem.build_cards hmac_sha3_256 key).
Local Abbreviation generate_loop :=
  (CardSystem.generate_loop hmac_sha3_256 key).
Local Abbreviation generate_card :=
  (CardSystem.generate_card hmac_sha3_256 key).
Local Abbreviation batch_of := (batch_of hmac_sha3_256 key).
Local Abbreviation attempt_outcome := (attempt_outcome hmac_sha3_256 key).
Local Abbreviation minted := (minted hmac_sha3_256 key).

Implicit Types (db : gmap (list N) row) (faults : nat -> fault).

Lemma insert_batch_Ok f now cards db db' :
  insert_batch f now cards db = Ok db' ->
  f = NoFault /\ Sql.executemany_insert now cards db = Ok db'.
Proof.
  unfold insert_batch. destruct f; try done.
  intros H. by result_step.
Qed.

(** One turn of the loop. *)
Lemma generate_loop_S remaining a faults tape pos now n db :
  generate_loop (S remaining) a faults tape pos now n db
  = match build_cards n tape pos with
    | Raise e => (Raise e, db)
    | Ok cards =>
        match insert_batch (faults a) now cards db with
        | Ok db' => (first_card_id cards, db')
        | Raise IntegrityError =>
            generate_loop remaining (S a) faults tape (pos + 16 * n) now n db
        | Raise e => (Raise e, db)
        end
    end.
Proof. reflexivity. Qed.

(** A uniqueness violation sends the loop to its next attempt, with the
    table as it was and a batch read further down the tape. *)
Lemma generate_loop_retry remaining a faults tape now n db :
  attempt_outcome faults tape now n db a = Raise IntegrityError ->
  generate_loop (S remaining) a faults tape (a * (16 * n)) now n db
  = generate_loop remaining (S a) faults tape (S a * (16 * n)) now n db.
Proof.
  unfold attempt_outcome, batch_of, mbind, result_bind. intros H.
  rewrite generate_loop_S.
  destruct (build_cards_total hmac_sha3_256 key n tape (a * (16 * n)))
    as (cards & Hcards & _).
  rewrite Hcards in H |- *. rewrite H. f_equal. lia.
Qed.

(** An attempt whose batch goes in ends the loop. *)
Lemma generate_loop_insert remaining a faults tape now n db cards db' :
  batch_of tape n a = Ok cards ->
  insert_batch (faults a) now cards db = Ok db' ->
  generate_loop (S remaining) a faults tape (a * (16 * n)) now n db
  = (first_card_id cards, db').
Proof.
  unfold batch_of. intros Hb Hi. by rewrite generate_loop_S, Hb, Hi.
Qed.

(** [k] colliding attempts in a row use up [k] turns of the loop. *)
Lemma generate_loop_retries k remaining a faults tape now n db :
  (forall i, (i < k)%nat ->
     attempt_outcome faults tape now n db (a + i) = Raise IntegrityError) ->
  generate_loop (k + remaining) a faults tape (a * (16 * n)) now n db
  = generate_loop remaining (a + k) faults tape ((a + k) * (16 * n)) now n db.
Proof.
  revert a. induction k as [|k IH]; intros a Hall.
  - by rewrite Nat.add_0_r.
  - change (S k + remaining)%nat with (S (k + remaining)).
    rewrite generate_loop_retry.
    + rewrite IH; [by replace (S a + k)%nat with (a + S k)%nat by lia|].
      intros i Hi. replace (S a + i)%nat with (a + S i)%nat by lia.
      apply Hall. lia.
    + specialize (Hall 0%nat). rewrite Nat.add_0_r in Hall. apply Hall. lia.
Qed.

(** The loop returns a card only after a batch went in whole: the batch
    of some attempt, built from the tape, of [n] cards, headed by the
    returned card. *)
Lemma generate_loop_Ok remaining a faults tape pos now n db id db' :
  generate_loop remaining a faults tape pos now n db = (Ok id, db') ->
  exists cards, Forall (minted tape) cards /\ length cards = n /\
    Sql.executemany_insert now cards db = Ok db' /\
    first_card_id cards = Ok id.
Proof.
  revert a pos. induction remaining as [|remaining IH]; intros a pos H;
    [done|].
  rewrite generate_loop_S in H.
  destruct (build_cards_total hmac_sha3_256 key n tape pos)
    as (cards & Hcards & Hlen & Hminted).
  rewrite Hcards in H.
  destruct (insert_batch (faults a) now cards db) as [db1|e] eqn:Hins.
  - apply insert_batch_Ok in Hins as [_ Hins].
    exists cards. by simplify_eq.
  - destruct e; try done. by eapply IH.
Qed.

(** Whatever the loop does, the table it leaves is the one it found or
    the one a whole batch produced. *)
Lemma generate_loop_table remaining a faults tape pos now n db :
  (generate_loop remaining a faults tape pos now n db).2 = db \/
  exists cards, Forall (minted tape) cards /\ length cards = n /\
    Sql.executemany_insert now cards db
    = Ok (generate_loop remaining a faults tape pos now n db).2.
Proof.
  revert a pos. induction remaining as [|remaining IH]; intros a pos;
    [by left|].
  rewrite generate_loop_S.
  destruct (build_cards_total hmac_sha3_256 key n tape pos)
    as (cards & Hcards & Hlen & Hminted).
  rewrite Hcards.
  destruct (insert_batch (faults a) now cards db) as [db1|e] eqn:Hins.
  - apply insert_batch_Ok in Hins as [_ Hins]. right. by exists cards.
  - destruct e; try by left. apply IH.
Qed.

End GenerateFacts.

(** ** Verification: the ordered checks *)

Lemma encode_app (a b : list N) (x y : list byte) :
  Py.encode a = Some x -> Py.encode b = Some y ->
  Py.encode (a ++ b) = Some (x ++ y).
Proof.
  revert x. induction a as [|c a IH]; simpl; intros x Ha Hb.
  - by simplify_eq.
  - destruct (Py.utf8_char c) as [bc|]; [|done].
    destruct (Py.encode a) as [ba|]; [|done]. simplify_eq.
    rewrite (IH ba eq_refl Hb). by rewrite app_assoc.
Qed.

Section VerifyFacts.

Variable hmac_sha3_256 : list byte -> list byte -> list byte.
Variable key : list byte.

Local Abbreviation sign := (CardSystem.sign hmac_sha3_256 key).
Local Abbreviation verify_card := (CardSystem.verify_card hmac_sha3_256 key).

Implicit Types (db : gmap (list N) row) (a b card : list N).

(** Check 1: a token without separator. *)
Lemma verify_no_separator f db card :
  SEP ∉ card -> verify_card f db card = Ok (rejected ErrFormat).
Proof.
  intros H. unfold CardSystem.verify_card.
  by rewrite (proj2 (contains_false _ _) H).
Qed.

(** Past check 1 the token is cut at its first separator. *)
Lemma verify_split f db a b :
  SEP ∉ a ->
  verify_card f db (a ++ SEP :: b) =
  if negb (length a =? 16)%nat || negb (length b =? 10)%nat
  then Ok (rejected ErrLength)
  else
    expected_sign ← sign a;
    same ← Py.compare_digest b expected_sign;
    if negb same then Ok (rejected ErrSignature)
    else
      match lookup_card f db (a ++ SEP :: b) with
      | Ok v => Ok v
      | Raise e =>
          if is_sqlite3_error e then Ok (rejected ErrDatabase) else Raise e
      end.
Proof.
  intros Ha. unfold CardSystem.verify_card.
  assert (Py.contains SEP (a ++ SEP :: b) = true) as ->.
  { apply contains_true, elem_of_app. right. apply elem_of_cons. by left. }
  by rewrite split1_first.
Qed.

(** The lookup, with a storage layer that works and a token that can be
    sent to it. *)
Lemma lookup_card_encodable db card :
  is_Some (Py.encode card) ->
  lookup_card NoFault db card =
  match db !! card with
  | None => Ok (rejected ErrNotFound)
  | Some r => Ok (Verification true (Some (is_used r)) (usage_count r) None)
  end.
Proof.
  intros [m Hm]. unfold lookup_card, Sql.bind_text, Sql.select_card.
  rewrite Hm. simpl. by destruct (db !! card).
Qed.

(** A lookup that answers [valid] has found the row. *)
Lemma lookup_card_valid f db card v :
  match lookup_card f db card with
  | Ok v => Ok v
  | Raise e =>
      if is_sqlite3_error e then Ok (rejected ErrDatabase) else Raise e
  end = Ok v ->
  valid v = true ->
  exists r, db !! card = Some r /\
    v = Verification true (Some (is_used r)) (usage_count r) None.
Proof.
  unfold lookup_card, Sql.select_card. intros Hv Hvalid.
  destruct f; simpl in Hv; try (by simplify_eq).
  all: unfold mbind, result_bind in Hv.
  all: destruct (Sql.bind_text card) as [?|e];
    [|destruct e; simpl in Hv; by simplify_eq].
  all: destruct (db !! card) as [r|]; simpl in Hv; [|by simplify_eq].
  all: exists r; by simplify_eq.
Qed.

(** Check 2: a part of the wrong length. *)
Lemma verify_bad_length f db a b :
  SEP ∉ a -> length a <> 16%nat \/ length b <> 10%nat ->
  verify_card f db (a ++ SEP :: b) = Ok (rejected ErrLength).
Proof.
  intros Ha Hlen. rewrite verify_split by done.
  destruct (Nat.eqb_spec (length a) 16), (Nat.eqb_spec (length b) 10);
    simpl; try done. lia.
Qed.

(** Check 3, when the supplied signature is ASCII and differs. *)
Lemma verify_mismatch f db a b expected :
  SEP ∉ a -> length a = 16%nat -> length b = 10%nat ->
  sign a = Ok expected -> Py.isascii b = true -> b <> expected ->
  verify_card f db (a ++ SEP :: b) = Ok (rejected ErrSignature).
Proof.
  intros Ha Hla Hlb Hsig Hascii Hne. rewrite verify_split by done.
  rewrite Hla, Hlb. simpl. rewrite Hsig. simpl.
  rewrite compare_digest_ne; [done..| |done].
  by eapply sign_isascii.
Qed.

(** Check 3, when the supplied signature holds a non-ASCII character:
    [hmac.compare_digest] raises and nothing catches it. *)
Lemma verify_non_ascii f db a b expected :
  SEP ∉ a -> length a = 16%nat -> length b = 10%nat ->
  sign a = Ok expected -> Py.isascii b = false ->
  verify_card f db (a ++ SEP :: b) = Raise TypeError.
Proof.
  intros Ha Hla Hlb Hsig Hascii. rewrite verify_split by done.
  rewrite Hla, Hlb. simpl. rewrite Hsig. simpl.
  by rewrite compare_digest_non_ascii.
Qed.

(** Checks 4 and 5: a token that carries its own signature is looked up,
    and the row is reported as stored. *)
Lemma verify_signed db a b :
  SEP ∉ a -> length a = 16%nat -> length b = 10%nat -> sign a = Ok b ->
  verify_card NoFault db (a ++ SEP :: b) =
  match db !! (a ++ SEP :: b) with
  | None => Ok (rejected ErrNotFound)
  | Some r => Ok (Verification true (Some (is_used r)) (usage_count r) None)
  end.
Proof.
  intros Ha Hla Hlb Hsig. rewrite verify_split by done.
  rewrite Hla, Hlb. simpl. rewrite Hsig. simpl.
  pose proof (sign_isascii _ _ _ _ Hsig) as Hb.
  rewrite compare_digest_refl by done. simpl.
  rewrite lookup_card_encodable; [by destruct (db !! (a ++ SEP :: b))|].
  destruct (sign_Ok _ _ _ _ Hsig) as (msg & Hmsg & _).
  destruct (encode_ascii _ Hb) as [mb Hmb].
  exists (msg ++ Py.byte_of SEP :: mb). apply encode_app; [done|].
  simpl. by rewrite Hmb.
Qed.

(** A token accepted as valid has the shape [raw # signature], carries
    the signature of its raw part, and is a row of the table. *)
Lemma verify_valid_inv f db card v :
  verify_card f db card = Ok v -> valid v = true ->
  exists a b r,
    card = a ++ SEP :: b /\ (SEP ∉ a) /\ length a = 16%nat /\
    length b = 10%nat /\ sign a = Ok b /\ db !! card = Some r /\
    v = Verification true (Some (is_used r)) (usage_count r) None.
Proof.
  intros Hv Hvalid.
  destruct (decide (SEP ∈ card)) as [Hin|Hnot].
  2: { rewrite verify_no_separator in Hv by done. by simplify_eq. }
  destruct (first_sep_decompose _ _ Hin) as (a & b & -> & Ha).
  rewrite verify_split in Hv by done.
  destruct (Nat.eqb_spec (length a) 16) as [Hla|];
    [|simpl in Hv; by simplify_eq].
  destruct (Nat.eqb_spec (length b) 10) as [Hlb|];
    [|simpl in Hv; by simplify_eq].
  simpl in Hv. unfold mbind, result_bind in Hv.
  destruct (sign a) as [expected|] eqn:Hsig; [|done].
  unfold Py.compare_digest in Hv.
  destruct (Py.isascii b && Py.isascii expected); [|done].
  unfold Py.str_eqb in Hv. case_bool_decide as Heq;
    [|simpl in Hv; by simplify_eq].
  subst expected. simpl in Hv.
  destruct (lookup_card_valid _ _ _ _ Hv Hvalid) as (r & Hr & ->).
  by exists a, b, r.
Qed.

End VerifyFacts.

(** ** Generation: retry policy and batch size *)

Section GenerateClaims.

Variable hmac_sha3_256 : list byte -> list byte -> list byte.
Variable key : list byte.

Local Abbreviation generate_card :=
  (CardSystem.generate_card hmac_sha3_256 key).
Local Abbreviation batch_of := (batch_of hmac_sha3_256 key).
Local Abbreviation attempt_outcome := (attempt_outcome hmac_sha3_256 key).

Implicit Types (db : gmap (list N) row) (faults : nat -> fault).

(** C6. [generate_card] makes at most 5 attempts. When its first [k]
    attempts each fail with a uniqueness violation, every one of them
    leaves the table untouched and the next attempt works on a batch read
    from fresh tape. With [k = 5] the call raises [RuntimeError]
    (generation exhausted), returns no card and the table is the one it
    started from. With [k < 5], that is after up to four failed attempts,
    if batch [k] goes in, the call returns the first card of that batch
    and the table holds the whole batch: exactly [batch_size] more
    rows. *)
Theorem generate_retries_whole_batches faults tape now db batch_size k :
  (k <= 5)%nat ->
  (forall i, (i < k)%nat ->
     attempt_outcome faults tape now (Z.to_nat batch_size) db i
     = Raise IntegrityError) ->
  (k = 5%nat ->
     generate_card faults tape now db batch_size = (Raise RuntimeError, db)) /\
  (forall cards db',
     (k < 5)%nat ->
     batch_of tape (Z.to_nat batch_size) k = Ok cards ->
     insert_batch (faults k) now cards db = Ok db' ->
     generate_card faults tape now db batch_size = (first_card_id cards, db') /\
     length cards = Z.to_nat batch_size /\
     size db' = (size db + Z.to_nat batch_size)%nat /\
     (forall c, c ∈ cards -> is_Some (db' !! c.1.1))).
Proof.
  intros Hk Hcollide. unfold CardSystem.generate_card.
  set (n := Z.to_nat batch_size) in *.
  pose proof (generate_loop_retries hmac_sha3_256 key k (5 - k) 0
                faults tape now n db Hcollide) as Hloop.
  replace (k + (5 - k))%nat with 5%nat in Hloop by lia.
  rewrite Nat.mul_0_l, Nat.add_0_l in Hloop.
  change max_attempts with 5%nat. split.
  - intros ->. rewrite Hloop. by rewrite Nat.sub_diag.
  - intros cards db' Hlt Hbatch Hins. rewrite Hloop.
    destruct (5 - k)%nat as [|remaining] eqn:Hrem; [lia|].
    rewrite (generate_loop_insert _ _ _ _ _ _ _ _ _ _ _ Hbatch Hins).
    apply insert_batch_Ok in Hins as [_ Hins].
    destruct (build_cards_total hmac_sha3_256 key n tape (k * (16 * n)))
      as (cards' & Hcards' & Hlen & _).
    unfold batch_of in Hbatch. rewrite Hcards' in Hbatch. simplify_eq.
    split; [done|]. split; [done|]. split.
    + by rewrite (executemany_size _ _ _ _ Hins), Hlen.
    + intros [[id raw] sig] Hc. simpl.
      by rewrite (executemany_inserted _ _ _ _ _ _ _ Hins Hc).
Qed.

(** C10. With [batch_size = 0] and a storage layer that works, the first
    attempt inserts no row and commits, and [cards[0][0]] then raises
    [IndexError]: the call returns no card and does not raise
    [RuntimeError] either. *)
Theorem generate_empty_batch_index_error tape now db :
  generate_card no_faults tape now db 0 = (Raise IndexError, db) /\
  attempt_outcome no_faults tape now (Z.to_nat 0) db 0 = Ok db /\
  (forall id, (generate_card no_faults tape now db 0).1 <> Ok id) /\
  (generate_card no_faults tape now db 0).1 <> Raise RuntimeError.
Proof. repeat split; done. Qed.

(** Inserting cards built by [build_cards] can fail in one way only. *)
Lemma executemany_minted_error tape now cards db e :
  Forall (minted hmac_sha3_256 key tape) cards ->
  Sql.executemany_insert now cards db = Raise e -> e = IntegrityError.
Proof.
  intros Hminted. revert db.
  induction Hminted as [|[[id raw] sig] cards Hc _ IH]; intros db Hins;
    [done|].
  rewrite executemany_cons in Hins.
  destruct (Sql.insert_card now (id, raw, sig) db) as [db1|e1] eqn:Hone;
    [by eapply IH|].
  simplify_eq. apply minted_isascii in Hc as (Hid & Hraw & Hsig).
  simpl in Hid, Hraw, Hsig. destruct (db !! id) as [r|] eqn:Hlook.
  - rewrite (insert_card_taken _ _ _ _ _ r) in Hone by done. by simplify_eq.
  - by rewrite insert_card_free in Hone.
Qed.

Lemma generate_loop_outcomes remaining a tape pos now n db :
  (1 <= n)%nat ->
  (exists id db',
     CardSystem.generate_loop hmac_sha3_256 key remaining a no_faults tape pos
       now n db = (Ok id, db'))
  \/ CardSystem.generate_loop hmac_sha3_256 key remaining a no_faults tape pos
       now n db = (Raise RuntimeError, db).
Proof.
  intros Hn. revert a pos.
  induction remaining as [|remaining IH]; intros a pos; [by right|].
  rewrite generate_loop_S.
  destruct (build_cards_total hmac_sha3_256 key n tape pos)
    as (cards & -> & Hlen & Hminted).
  unfold insert_batch, no_faults.
  destruct (Sql.executemany_insert now cards db) as [db'|e] eqn:Hins.
  - left. destruct cards as [|c cards]; [simpl in Hlen; lia|].
    by exists c.1.1, db'.
  - apply executemany_minted_error with (tape := tape) in Hins as ->; [|done].
    apply IH.
Qed.

(** With [batch_size >= 1] and a storage layer that works, the call ends
    in one of its two declared outcomes: a card or [RuntimeError]. *)
Lemma generate_declared_outcomes tape now db batch_size :
  (1 <= batch_size)%Z ->
  (exists id db', generate_card no_faults tape now db batch_size = (Ok id, db'))
  \/ generate_card no_faults tape now db batch_size = (Raise RuntimeError, db).
Proof. intros Hn. apply generate_loop_outcomes. lia. Qed.

End GenerateClaims.

(** ** From generation to verification *)

Section Lifecycle.

Variable hmac_sha3_256 : list byte -> list byte -> list byte.
Variable key : list byte.

Local Abbreviation sign := (CardSystem.sign hmac_sha3_256 key).
Local Abbreviation verify_card := (CardSystem.verify_card hmac_sha3_256 key).
Local Abbreviation generate_card :=
  (CardSystem.generate_card hmac_sha3_256 key).
Local Abbreviation minted := (minted hmac_sha3_256 key).

Implicit Types (db : gmap (list N) row) (faults : nat -> fault).

(** A minted card whose raw part holds the separator is cut too early:
    the length check refuses it, whatever the table holds. *)
Lemma verify_minted_separator f db tape c :
  minted tape c -> SEP ∈ c.1.2 ->
  verify_card f db c.1.1 = Ok (rejected ErrLength).
Proof.
  intros (pos & Hraw & _ & ->) Hin.
  destruct (first_sep_decompose _ _ Hin) as (a & b & Hsplit & Ha).
  assert (length a <> 16%nat) as Hlen.
  { pose proof (random_raw_length tape pos) as Hl. rewrite <- Hraw, Hsplit in Hl.
    rewrite length_app in Hl. simpl in Hl. lia. }
  rewrite Hsplit, <- app_assoc. simpl.
  apply verify_bad_length; [done | by left].
Qed.

(** A minted card whose raw part is free of the separator passes the
    first three checks and is looked up. *)
Lemma verify_minted_clean db tape c :
  (forall k m, length (hmac_sha3_256 k m) = 32%nat) ->
  minted tape c -> SEP ∉ c.1.2 ->
  verify_card NoFault db c.1.1 =
  match db !! c.1.1 with
  | None => Ok (rejected ErrNotFound)
  | Some r => Ok (Verification true (Some (is_used r)) (usage_count r) None)
  end.
Proof.
  intros Hdigest (pos & Hraw & Hsig & ->) Hnot.
  apply verify_signed; [done| |by eapply sign_length|done].
  rewrite Hraw. apply random_raw_length.
Qed.

(** What [verify_card] answers for each card of a batch that
    [generate_card] has just inserted. *)
Lemma generate_then_verify faults tape now db batch_size id db' card r :
  (forall k m, length (hmac_sha3_256 k m) = 32%nat) ->
  generate_card faults tape now db batch_size = (Ok id, db') ->
  db !! card = None -> db' !! card = Some r ->
  fresh_row r /\
  verify_card NoFault db' card =
  if decide (SEP ∈ raw_part r) then Ok (rejected ErrLength)
  else Ok (Verification true (Some false) 0 None).
Proof.
  intros Hdigest Hgen Hnew Hrow.
  apply generate_loop_Ok in Hgen as (cards & Hminted & _ & Hins & _).
  destruct (executemany_origin _ _ _ _ _ _ Hins Hrow)
    as [Hold|(_ & raw & sig & Hin & ->)]; [congruence|].
  split; [done|]. simpl.
  rewrite Forall_forall in Hminted. specialize (Hminted _ Hin).
  case_decide as Hsep.
  - by apply (verify_minted_separator NoFault db' tape (card, raw, sig)).
  - pose proof (verify_minted_clean db' tape (card, raw, sig) Hdigest
                  Hminted Hsep) as Hv.
    simpl in Hv. by rewrite Hv, Hrow.
Qed.

(** On an empty table, a batch of one card goes in at the first attempt. *)
Lemma generate_one_on_empty tape now :
  exists sig,
    sign (random_raw tape 0) = Ok sig /\
    generate_card no_faults tape now ∅ 1 =
    (Ok (random_raw tape 0 ++ SEP :: sig),
     {[ random_raw tape 0 ++ SEP :: sig :=
          Row (random_raw tape 0) sig now false None 0 ]}).
Proof.
  destruct (sign_ascii_total hmac_sha3_256 key _ (random_raw_isascii tape 0))
    as [sig Hsig].
  exists sig. split; [done|].
  unfold CardSystem.generate_card, max_attempts.
  change (Z.to_nat 1) with 1%nat.
  rewrite generate_loop_S.
  cbn [CardSystem.build_cards mbind result_bind]. rewrite Hsig.
  cbn [mbind result_bind]. unfold insert_batch, no_faults.
  rewrite executemany_cons.
  rewrite insert_card_free; [done|apply lookup_empty|..].
  - rewrite isascii_app, random_raw_isascii. simpl.
    by eapply sign_isascii.
  - apply random_raw_isascii.
  - by eapply sign_isascii.
Qed.

(** C1. A card that [generate_card] has just stored is refused by
    [verify_card] when its raw part drew the separator from [charset]:
    on the tape that always draws [#], the card returned by a successful
    call with [batch_size = 1] is in the table, and verifying it at once
    answers [valid = False] with the length error. *)
Theorem generated_card_with_separator_rejected now :
  exists card db',
    generate_card no_faults (const_tape 34) now ∅ 1 = (Ok card, db') /\
    take 17 card = lit "#################" /\
    is_Some (db' !! card) /\
    verify_card NoFault db' card = Ok (rejected ErrLength) /\
    verify_card NoFault db' card
    <> Ok (Verification true (Some false) 0 None).
Proof.
  destruct (generate_one_on_empty (const_tape 34) now) as (sig & Hsig & Hgen).
  eexists _, _. split; [exact Hgen|].
  change (random_raw (const_tape 34) 0) with (lit "################") in *.
  assert (CardSystem.verify_card hmac_sha3_256 key NoFault
            {[ lit "################" ++ SEP :: sig :=
                 Row (lit "################") sig now false None 0 ]}
            (lit "################" ++ SEP :: sig)
          = Ok (rejected ErrLength)) as Hverify.
  { apply (verify_minted_separator NoFault _ (const_tape 34)
             (lit "################" ++ SEP :: sig, lit "################", sig)).
    - by exists 0%nat.
    - simpl. apply elem_of_cons. by left. }
  split; [done|]. split; [by rewrite lookup_singleton_eq|].
  split; [done|]. by rewrite Hverify.
Qed.

End Lifecycle.

(** ** The shape of a card *)

Lemma charset_excludes_ambiguous :
  Forall (fun c => c ∉ charset) (lit "0O1Il").
Proof. repeat constructor; by apply contains_false. Qed.

Lemma separator_in_charset : SEP ∈ charset.
Proof. by apply contains_true. Qed.

Lemma count_sep_cons c card :
  count_sep (c :: card)
  = ((if decide (c = SEP) then 1 else 0) + count_sep card)%nat.
Proof.
  unfold count_sep. rewrite filter_cons. by repeat case_decide.
Qed.

Lemma count_sep_app a b : count_sep (a ++ b) = (count_sep a + count_sep b)%nat.
Proof. unfold count_sep. by rewrite filter_app, length_app. Qed.

Lemma count_sep_zero card : count_sep card = 0%nat <-> SEP ∉ card.
Proof.
  induction card as [|c card IH]; [by split; [intros _; apply not_elem_of_nil|]|].
  rewrite count_sep_cons, not_elem_of_cons. case_decide as Hc.
  - split; [done|]. by intros [? _].
  - simpl. rewrite IH. split; [|by intros [_ ?]].
    intros ?. split; [congruence|done].
Qed.

Section CardShape.

Variable hmac_sha3_256 : list byte -> list byte -> list byte.
Variable key : list byte.

Local Abbreviation generate_card :=
  (CardSystem.generate_card hmac_sha3_256 key).
Local Abbreviation minted := (minted hmac_sha3_256 key).

(** With a 32-byte digest, a minted card is 16 characters of [charset],
    the separator, and 10 lowercase hexadecimal digits. *)
Lemma minted_shape tape c :
  (forall k m, length (hmac_sha3_256 k m) = 32%nat) ->
  minted tape c ->
  length c.1.1 = 27%nat /\ take 16 c.1.1 = c.1.2 /\
  c.1.1 !! 16%nat = Some SEP /\ drop 17 c.1.1 = c.2 /\
  Forall (fun x => x ∈ charset) c.1.2 /\
  length c.2 = 10%nat /\ Forall is_lower_hex c.2.
Proof.
  intros Hdigest (pos & Hraw & Hsig & ->).
  pose proof (random_raw_length tape pos) as Hlen. rewrite <- Hraw in Hlen.
  pose proof (sign_length _ _ _ _ Hdigest Hsig) as Hlsig.
  repeat split.
  - rewrite length_app. simpl. lia.
  - by rewrite take_app_length' by done.
  - rewrite lookup_app_r by lia. by rewrite Hlen.
  - rewrite drop_app_ge by lia. by rewrite Hlen.
  - rewrite Hraw. apply Forall_forall. intros x. apply random_raw_charset.
  - done.
  - by eapply sign_lower_hex.
Qed.

(** C2. The alphabet of the raw part holds the separator: index 34 of
    [charset] is [#]. On the tape that always draws it, the card that
    [generate_card] returns has a raw part made of separators only, so the
    separator does not occur only between the two parts. *)
Theorem raw_alphabet_holds_separator now :
  SEP ∈ charset /\ Py.choice charset 34 = SEP /\
  exists card db',
    generate_card no_faults (const_tape 34) now ∅ 1 = (Ok card, db') /\
    take 16 card = lit "################" /\
    card !! 16%nat = Some SEP /\
    (17 <= count_sep card)%nat.
Proof.
  split; [apply separator_in_charset|]. split; [done|].
  destruct (generate_one_on_empty hmac_sha3_256 key (const_tape 34) now)
    as (sig & Hsig & Hgen).
  eexists _, _. split; [exact Hgen|].
  change (random_raw (const_tape 34) 0) with (lit "################").
  repeat split. rewrite count_sep_app. change (count_sep (lit "################"))
    with 16%nat. rewrite count_sep_cons. rewrite decide_True by done. lia.
Qed.

End CardShape.

(** ** Redemption *)

Section Redeem.

Implicit Types (db : gmap (list N) row) (card : list N).

Lemma update_card_encodable f now db card :
  is_Some (Py.encode card) ->
  update_card f now db card =
  match f with
  | ExecuteFault | CommitFault => Raise Sqlite3Error
  | NoFault | ConnectFault =>
      let '(db', total_changes) := Sql.update_used now card db in
      Ok ((0 <? total_changes)%Z, db')
  end.
Proof.
  intros [m Hm]. unfold update_card, Sql.bind_text. rewrite Hm.
  by destruct f.
Qed.

(** The row that the UPDATE leaves in place of [r]. *)
Lemma mark_as_used_stored now db card r :
  db !! card = Some r -> is_Some (Py.encode card) ->
  mark_as_used NoFault now db card =
  (Ok true,
   <[card := Row (raw_part r) (signature r) (created_at r) true (Some now)
                 (usage_count r + 1)]> db).
Proof.
  intros Hr Henc. unfold mark_as_used.
  by rewrite update_card_encodable, (update_used_hit _ _ _ _ Hr).
Qed.

Lemma mark_as_used_absent now db card :
  db !! card = None -> is_Some (Py.encode card) ->
  mark_as_used NoFault now db card = (Ok false, db).
Proof.
  intros Hr Henc. unfold mark_as_used.
  by rewrite update_card_encodable, (update_used_miss _ _ _ Hr).
Qed.

(** A failure of the UPDATE or of the commit is caught: the answer is
    [False] and nothing is stored. *)
Lemma mark_as_used_caught f now db card :
  f = ExecuteFault \/ f = CommitFault -> is_Some (Py.encode card) ->
  mark_as_used f now db card = (Ok false, db).
Proof.
  intros Hf Henc. unfold mark_as_used.
  rewrite update_card_encodable by done. by destruct Hf as [-> | ->].
Qed.

(** With a storage layer that works, [mark_as_used] answers [True]
    exactly when the token is the key of a row, and then that row alone
    changes. *)
Lemma mark_as_used_true_iff now db card :
  is_Some (Py.encode card) ->
  ((mark_as_used NoFault now db card).1 = Ok true <-> is_Some (db !! card)) /\
  (forall k, k <> card ->
     (mark_as_used NoFault now db card).2 !! k = db !! k).
Proof.
  intros Henc. destruct (db !! card) as [r|] eqn:Hr.
  - rewrite (mark_as_used_stored _ _ _ _ Hr Henc). simpl. split; [done|].
    intros k Hk. by rewrite lookup_insert_ne.
  - rewrite (mark_as_used_absent _ _ _ Hr Henc). simpl. split; [|done].
    split; [done|]. by intros [? ?].
Qed.

(** A token that cannot be sent to the storage layer makes the call
    raise, unless the statement fails before the token is bound: the
    exception is no [sqlite3.Error]. *)
Lemma mark_as_used_unencodable f now db card :
  f = NoFault \/ f = CommitFault -> Py.encode card = None ->
  mark_as_used f now db card = (Raise UnicodeEncodeError, db).
Proof.
  intros Hf Henc. unfold mark_as_used, update_card, Sql.bind_text.
  rewrite Henc. by destruct Hf as [-> | ->].
Qed.

(** No fault of the storage layer makes [mark_as_used] answer [True],
    and a call that does not answer [True] stores nothing. *)
Lemma mark_as_used_fault_not_true f now db card :
  f <> NoFault ->
  (mark_as_used f now db card).1 <> Ok true /\
  (mark_as_used f now db card).2 = db.
Proof.
  intros Hf. unfold mark_as_used, update_card, Sql.bind_text.
  destruct f; try done; by destruct (Py.encode card).
Qed.

(** C4. A failure of [sqlite3.connect] is not turned into [False]: the
    connection is opened outside the [try], so [mark_as_used] raises the
    [sqlite3.Error] instead of returning. *)
Theorem mark_as_used_connect_fault_raises now db card :
  mark_as_used ConnectFault now db card = (Raise Sqlite3Error, db) /\
  (forall b, (mark_as_used ConnectFault now db card).1 <> Ok b).
Proof. by split. Qed.

End Redeem.

Section RedeemVerify.

Variable hmac_sha3_256 : list byte -> list byte -> list byte.
Variable key : list byte.

Local Abbreviation sign := (CardSystem.sign hmac_sha3_256 key).
Local Abbreviation verify_card := (CardSystem.verify_card hmac_sha3_256 key).
Local Abbreviation generate_card :=
  (CardSystem.generate_card hmac_sha3_256 key).

Implicit Types (db : gmap (list N) row) (card : list N).

Lemma signed_card_encodable a b :
  sign a = Ok b -> is_Some (Py.encode (a ++ SEP :: b)).
Proof.
  intros Hsig. destruct (sign_Ok _ _ _ _ Hsig) as (msg & Hmsg & _).
  destruct (encode_ascii _ (sign_isascii _ _ _ _ Hsig)) as [mb Hmb].
  exists (msg ++ Py.byte_of SEP :: mb). apply encode_app; [done|].
  simpl. by rewrite Hmb.
Qed.

(** Redeeming a card that [verify_card] accepts: the answer is [True],
    the counter goes up by one, [used_at] is the time of the call, and
    [verify_card] then reports the row as it is stored. *)
Lemma redeem_accepted_card db card v now :
  verify_card NoFault db card = Ok v -> valid v = true ->
  exists r,
    db !! card = Some r /\
    mark_as_used NoFault now db card =
    (Ok true,
     <[card := Row (raw_part r) (signature r) (created_at r) true (Some now)
                   (usage_count r + 1)]> db) /\
    verify_card NoFault (mark_as_used NoFault now db card).2 card =
    Ok (Verification true (Some true) (v_usage_count v + 1) None).
Proof.
  intros Hv Hvalid.
  destruct (verify_valid_inv _ _ _ _ _ _ Hv Hvalid)
    as (a & b & r & -> & Ha & Hla & Hlb & Hsig & Hr & ->).
  exists r. split; [done|].
  pose proof (mark_as_used_stored now _ _ _ Hr (signed_card_encodable _ _ Hsig))
    as Hmark.
  split; [done|]. rewrite Hmark. simpl.
  rewrite verify_signed by done. by rewrite lookup_insert_eq.
Qed.

(** Two redemptions in a row of an accepted, unredeemed card. *)
Lemma redeem_twice db card t1 t2 :
  verify_card NoFault db card = Ok (Verification true (Some false) 0 None) ->
  let s1 := mark_as_used NoFault t1 db card in
  let s2 := mark_as_used NoFault t2 s1.2 card in
  s1.1 = Ok true /\
  verify_card NoFault s1.2 card = Ok (Verification true (Some true) 1 None) /\
  s2.1 = Ok true /\
  verify_card NoFault s2.2 card = Ok (Verification true (Some true) 2 None) /\
  used_at <$> s1.2 !! card = Some (Some t1) /\
  used_at <$> s2.2 !! card = Some (Some t2).
Proof.
  intros Hv s1 s2.
  destruct (redeem_accepted_card db card _ t1 Hv eq_refl)
    as (r & Hr & Hm1 & Hv1).
  change (v_usage_count _ + 1)%Z with 1%Z in Hv1.
  destruct (redeem_accepted_card _ card _ t2 Hv1 eq_refl)
    as (r1 & Hr1 & Hm2 & Hv2).
  change (v_usage_count _ + 1)%Z with 2%Z in Hv2.
  subst s1 s2. rewrite Hv1, Hv2, Hm2, Hm1. cbn [fst snd].
  by rewrite !lookup_insert_eq.
Qed.

(** C5. A stored card whose raw part holds the separator can be redeemed
    but not verified: on the tape that always draws [#], the card that
    [generate_card] stores is redeemed with answer [True] and its row gets
    [is_used = TRUE], the time of the call and [usage_count = 1], while
    [verify_card] still answers with the length error, [is_used = None]
    and [usage_count = 0]. *)
Theorem redeemed_card_with_separator_not_reported now t :
  exists card db' r,
    generate_card no_faults (const_tape 34) now ∅ 1 = (Ok card, db') /\
    (mark_as_used NoFault t db' card).1 = Ok true /\
    (mark_as_used NoFault t db' card).2 !! card = Some r /\
    is_used r = true /\ used_at r = Some t /\ usage_count r = 1%Z /\
    verify_card NoFault (mark_as_used NoFault t db' card).2 card
    = Ok (Verification false None 0 (Some ErrLength)).
Proof.
  destruct (generate_one_on_empty hmac_sha3_256 key (const_tape 34) now)
    as (sig & Hsig & Hgen).
  eexists _, _, _. split; [exact Hgen|].
  change (random_raw (const_tape 34) 0) with (lit "################") in *.
  rewrite (mark_as_used_stored t _ _ _ (lookup_singleton_eq _ _)
             (signed_card_encodable _ _ Hsig)).
  simpl. split; [done|]. split; [apply lookup_insert_eq|].
  do 3 (split; [done|]).
  apply (verify_minted_separator hmac_sha3_256 key NoFault _ (const_tape 34)
           (lit "################" ++ SEP :: sig, lit "################", sig)).
  - by exists 0%nat.
  - simpl. apply elem_of_cons. by left.
Qed.

End RedeemVerify.

(** ** Tampering with the signature *)

Lemma replace_in_signature (a b : list N) i c :
  length a = 16%nat ->
  replace_char (17 + i) c (a ++ SEP :: b) = a ++ SEP :: <[i := c]> b.
Proof.
  intros Hla. unfold replace_char.
  rewrite insert_app_r_alt by lia.
  by replace (17 + i - length a)%nat with (S i) by lia.
Qed.

Lemma isascii_insert_non_ascii (b : list N) i c :
  (i < length b)%nat -> 128 <= c -> Py.isascii (<[i := c]> b) = false.
Proof.
  intros Hi Hc. destruct (Py.isascii (<[i := c]> b)) eqn:Hascii; [|done].
  assert (c ∈ <[i := c]> b) as Hin.
  { apply list_elem_of_lookup. exists i. by apply list_lookup_insert_eq. }
  pose proof (elem_of_isascii _ _ Hascii Hin). lia.
Qed.

Lemma isascii_insert_ascii (b : list N) i c :
  Py.isascii b = true -> c < 128 -> Py.isascii (<[i := c]> b) = true.
Proof.
  rewrite !isascii_Forall. intros Hb Hc. by apply Forall_insert.
Qed.

Section Tampering.

Variable hmac_sha3_256 : list byte -> list byte -> list byte.
Variable key : list byte.

Local Abbreviation verify_card := (CardSystem.verify_card hmac_sha3_256 key).

Implicit Types (db : gmap (list N) row) (card : list N).

(** C9. Replacing a character of the signature of an accepted card by a
    non-ASCII character does not yield the signature error:
    [hmac.compare_digest] raises [TypeError] on a non-ASCII [str], and
    [verify_card] lets the exception through instead of returning a
    result. The signature is the ten characters from index 17 on. *)
Theorem tampered_signature_non_ascii_raises f db card v i c :
  verify_card f db card = Ok v -> valid v = true ->
  (i < 10)%nat -> 128 <= c ->
  verify_card f db (replace_char (17 + i) c card) = Raise TypeError.
Proof.
  intros Hv Hvalid Hi Hc.
  destruct (verify_valid_inv _ _ _ _ _ _ Hv Hvalid)
    as (a & b & r & -> & Ha & Hla & Hlb & Hsig & _ & _).
  rewrite replace_in_signature by done.
  eapply verify_non_ascii; [done|done| |done|].
  - by rewrite length_insert.
  - apply isascii_insert_non_ascii; [lia|done].
Qed.

(** The same replacement by an ASCII character that differs from the one
    it replaces is answered with the signature error. *)
Lemma tampered_signature_ascii_rejected f db card v i c :
  verify_card f db card = Ok v -> valid v = true ->
  (i < 10)%nat -> c < 128 -> card !! (17 + i)%nat <> Some c ->
  verify_card f db (replace_char (17 + i) c card)
  = Ok (rejected ErrSignature).
Proof.
  intros Hv Hvalid Hi Hc Hdiff.
  destruct (verify_valid_inv _ _ _ _ _ _ Hv Hvalid)
    as (a & b & r & -> & Ha & Hla & Hlb & Hsig & _ & _).
  rewrite replace_in_signature by done.
  eapply verify_mismatch; [done|done| |done| |].
  - by rewrite length_insert.
  - apply isascii_insert_ascii; [by eapply sign_isascii|done].
  - intros Heq. apply Hdiff.
    rewrite lookup_app_r by lia.
    replace (17 + i - length a)%nat with (S i) by lia. simpl.
    rewrite <- Heq. apply list_lookup_insert_eq. lia.
Qed.

(** ** The format check *)

(** A token with a second separator inside a ten-character signature part
    passes the format and length checks and fails the signature check. *)
Lemma verify_two_separators f db :
  verify_card f db (lit "AAAAAAAAAAAAAAAA#12345#7890")
  = Ok (rejected ErrSignature).
Proof.
  change (lit "AAAAAAAAAAAAAAAA#12345#7890")
    with (lit "AAAAAAAAAAAAAAAA" ++ SEP :: lit "12345#7890").
  destruct (sign_ascii_total hmac_sha3_256 key (lit "AAAAAAAAAAAAAAAA") eq_refl)
    as [expected Hsig].
  eapply verify_mismatch; [by apply contains_false|done|done|exact Hsig|done|].
  intros <-. apply sign_lower_hex in Hsig.
  by apply lower_hex_no_sep, contains_false in Hsig.
Qed.

(** Past the format check, no outcome is the format error. *)
Lemma verify_separator_not_format_error f db card :
  SEP ∈ card -> verify_card f db card <> Ok (rejected ErrFormat).
Proof.
  intros Hin. destruct (first_sep_decompose _ _ Hin) as (a & b & -> & Ha).
  rewrite verify_split by done.
  unfold mbind, result_bind, lookup_card, Sql.select_card.
  unfold mbind, result_bind. repeat (case_match; simplify_eq/=; try done).
Qed.

(** C3 (amended). The first check of [verify_card] answers with the
    format error exactly for the tokens that hold no separator. A token
    that holds two or more passes it: it is cut at its first separator and
    then refused by the length check or by the signature check, or the
    call raises while computing or comparing the signature; it is never
    accepted. *)
Theorem format_check_rejects_exactly_no_separator f db card :
  (verify_card f db card = Ok (rejected ErrFormat) <->
   count_sep card = 0%nat) /\
  ((2 <= count_sep card)%nat ->
   verify_card f db card ∈
     [Ok (rejected ErrLength); Ok (rejected ErrSignature);
      Raise TypeError; Raise UnicodeEncodeError]).
Proof.
  split.
  - rewrite count_sep_zero. split.
    + intros Hv. destruct (decide (SEP ∈ card)) as [Hin|]; [|done].
      by apply verify_separator_not_format_error in Hv.
    + apply verify_no_separator.
  - intros Hcount.
    assert (SEP ∈ card) as Hin.
    { destruct (decide (SEP ∈ card)) as [|Hnot]; [done|].
      apply count_sep_zero in Hnot. lia. }
    destruct (first_sep_decompose _ _ Hin) as (a & b & -> & Ha).
    assert (SEP ∈ b) as Hb.
    { destruct (decide (SEP ∈ b)) as [|Hnot]; [done|].
      rewrite count_sep_app, count_sep_cons, decide_True in Hcount by done.
      apply count_sep_zero in Ha, Hnot. lia. }
    rewrite verify_split by done.
    destruct (negb _ || negb _); [in_list|].
    unfold mbind, result_bind, CardSystem.sign.
    destruct (Py.encode a) as [msg|]; [|in_list].
    unfold Py.compare_digest.
    destruct (Py.isascii b && _); [|in_list].
    unfold Py.str_eqb. rewrite bool_decide_eq_false_2; [in_list|].
    intros ->. revert Hb. apply lower_hex_no_sep, Forall_take, hex_lower_hex.
Qed.

End Tampering.

(** C3 (as stated) fails: this token holds two separators, and the
    answer is the signature error, not the format error. *)
Lemma two_separators_not_format_error :
  count_sep (lit "AAAAAAAAAAAAAAAA#12345#7890") = 2%nat /\
  CardSystem.verify_card toy_hmac toy_key NoFault ∅
    (lit "AAAAAAAAAAAAAAAA#12345#7890") = Ok (rejected ErrSignature) /\
  CardSystem.verify_card toy_hmac toy_key NoFault ∅
    (lit "AAAAAAAAAAAAAAAA#12345#7890") <> Ok (rejected ErrFormat).
Proof.
  split; [done|]. rewrite verify_two_separators. by split.
Qed.

Lemma format_check_witness :
  CardSystem.verify_card toy_hmac toy_key NoFault ∅
    (lit "AAAAAAAAAAAAAAAA#12345#7890") ∈
  [Ok (rejected ErrLength); Ok (rejected ErrSignature);
   Raise TypeError; Raise UnicodeEncodeError].
Proof.
  apply (format_check_rejects_exactly_no_separator toy_hmac toy_key NoFault ∅
           (lit "AAAAAAAAAAAAAAAA#12345#7890")).
  vm_compute. lia.
Defined.

Lemma tampered_signature_witness :
  CardSystem.verify_card toy_hmac toy_key NoFault toy_db
    (replace_char 17 233 toy_card) = Raise TypeError.
Proof.
  apply (tampered_signature_non_ascii_raises toy_hmac toy_key NoFault toy_db
           toy_card (Verification true (Some false) 0 None) 0 233).
  - vm_compute. reflexivity.
  - reflexivity.
  - lia.
  - lia.
Defined.

(** ** Statistics *)

Section Aggregates.

Local Open Scope Z_scope.

Lemma sum_foldl_Some (xs : list Z) (a : Z) :
  foldl (fun acc x => Some (default 0 acc + x)) (Some a) xs
  = Some (a + list_sum xs).
Proof.
  revert a. induction xs as [|x xs IH]; intros a; simpl.
  - f_equal. lia.
  - rewrite IH. f_equal. lia.
Qed.

(** [SUM] is NULL over no row and the sum of the values otherwise. *)
Lemma sql_sum_spec (xs : list Z) :
  Sql.sum xs = match xs with [] => None | _ => Some (list_sum xs) end.
Proof.
  destruct xs as [|x xs]; [done|].
  unfold Sql.sum. simpl. by rewrite sum_foldl_Some.
Qed.

Lemma min_foldl_Some (xs : list Z) (a : Z) :
  exists m,
    foldl (fun acc x => Some (from_option (Z.min x) x acc)) (Some a) xs
    = Some m /\
    (m = a \/ m ∈ xs) /\ m <= a /\ (forall x, x ∈ xs -> m <= x).
Proof.
  revert a. induction xs as [|x xs IH]; intros a; simpl.
  - exists a. repeat split; [by left | lia |].
    intros x Hx. by apply elem_of_nil in Hx.
  - destruct (IH (Z.min x a)) as (m & -> & Hm & Hle & Hall).
    exists m. split; [done|]. split; [|split].
    + destruct Hm as [->|Hm].
      * destruct (Z.min_spec x a) as [[_ ->]|[_ ->]];
          [right; apply elem_of_cons; by left | by left].
      * right. apply elem_of_cons. by right.
    + lia.
    + intros y [->|Hy]%elem_of_cons; [lia | by apply Hall].
Qed.

Lemma max_foldl_Some (xs : list Z) (a : Z) :
  exists m,
    foldl (fun acc x => Some (from_option (Z.max x) x acc)) (Some a) xs
    = Some m /\
    (m = a \/ m ∈ xs) /\ a <= m /\ (forall x, x ∈ xs -> x <= m).
Proof.
  revert a. induction xs as [|x xs IH]; intros a; simpl.
  - exists a. repeat split; [by left | lia |].
    intros x Hx. by apply elem_of_nil in Hx.
  - destruct (IH (Z.max x a)) as (m & -> & Hm & Hle & Hall).
    exists m. split; [done|]. split; [|split].
    + destruct Hm as [->|Hm].
      * destruct (Z.max_spec x a) as [[_ ->]|[_ ->]];
          [by left | right; apply elem_of_cons; by left].
      * right. apply elem_of_cons. by right.
    + lia.
    + intros y [->|Hy]%elem_of_cons; [lia | by apply Hall].
Qed.

(** [MIN] over at least one row is a value of the column below all the
    others; [MAX] likewise above. *)
Lemma sql_min_spec (x : Z) (xs : list Z) :
  exists m, Sql.min (x :: xs) = Some m /\ m ∈ x :: xs /\
            (forall y, y ∈ x :: xs -> m <= y).
Proof.
  destruct (min_foldl_Some xs x) as (m & Hm & Hin & Hle & Hall).
  exists m. split; [done|]. split.
  - apply elem_of_cons. destruct Hin; [by left | by right].
  - intros y [->|Hy]%elem_of_cons; [done | by apply Hall].
Qed.

Lemma sql_max_spec (x : Z) (xs : list Z) :
  exists m, Sql.max (x :: xs) = Some m /\ m ∈ x :: xs /\
            (forall y, y ∈ x :: xs -> y <= m).
Proof.
  destruct (max_foldl_Some xs x) as (m & Hm & Hin & Hle & Hall).
  exists m. split; [done|]. split.
  - apply elem_of_cons. destruct Hin; [by left | by right].
  - intros y [->|Hy]%elem_of_cons; [done | by apply Hall].
Qed.

Lemma list_sum_cons (x : Z) (xs : list Z) :
  list_sum (x :: xs) = x + list_sum xs.
Proof. reflexivity. Qed.

Lemma list_sum_perm (xs ys : list Z) : xs ≡ₚ ys -> list_sum xs = list_sum ys.
Proof.
  induction 1 as [|x xs ys _ IH|x y xs|xs ys zs _ IH1 _ IH2]; simpl;
    [done | by rewrite IH | lia | congruence].
Qed.

Implicit Types (db : gmap (list N) row).




Lemma rows_insert db k r :
  db !! k = None -> Sql.rows (<[k := r]> db) ≡ₚ r :: Sql.rows db.
Proof.
  intros Hk. unfold Sql.rows. by rewrite (map_to_list_insert db k r Hk).
Qed.




End Aggregates.

Section Statistics.

Local Open Scope Z_scope.

Implicit Types (db : gmap (list N) row).



End Statistics.


(** ** The invariant of a record *)

Section Invariant.

Variable hmac_sha3_256 : list byte -> list byte -> list byte.
Variable key : list byte.

Local Abbreviation step := (step hmac_sha3_256 key).
Local Abbreviation reachable := (reachable hmac_sha3_256 key).

Implicit Types (db : gmap (list N) row).

(** What [mark_as_used] leaves: the table as it was, or the table with
    the one row of the token updated. *)
Lemma mark_as_used_table f now db card :
  (mark_as_used f now db card).2 = db \/
  exists r, db !! card = Some r /\
    (mark_as_used f now db card).2 =
    <[card := Row (raw_part r) (signature r) (created_at r) true (Some now)
                  (usage_count r + 1)]> db.
Proof.
  destruct (decide (f = NoFault)) as [->|Hf];
    [|left; by apply mark_as_used_fault_not_true].
  destruct (Py.encode card) as [m|] eqn:Henc;
    [|left;
      by rewrite (mark_as_used_unencodable NoFault now db card
                    (or_introl eq_refl) Henc)].
  destruct (db !! card) as [r|] eqn:Hr.
  - right. exists r. split; [done|].
    by rewrite (mark_as_used_stored now db card r) by (by eauto).
  - left. by rewrite mark_as_used_absent by (by eauto).
Qed.

(** What [generate_card] leaves: the table as it was, or the table with a
    whole batch of fresh rows added. *)
Lemma generate_card_table faults tape now db batch_size :
  let db' :=
    (generate_card hmac_sha3_256 key faults tape now db batch_size).2 in
  forall k,
    db' !! k = db !! k \/
    (db !! k = None /\ exists r, db' !! k = Some r /\ fresh_row r).
Proof.
  intros db' k. subst db'. unfold generate_card.
  destruct (generate_loop_table hmac_sha3_256 key max_attempts 0 faults tape 0
              now (Z.to_nat batch_size) db) as [->|(cards & _ & _ & Hins)];
    [by left|].
  destruct (CardSystem.generate_loop _ _ _ _ _ _ _ _ _ _).2 as [db'] eqn:Hdb'.
  rewrite <- Hdb' in *. clear Hdb'.
  match goal with |- ?m !! k = _ \/ _ => destruct (m !! k) as [r|] eqn:Hk end.
  - destruct (executemany_origin _ _ _ _ _ _ Hins Hk)
      as [Hold|(Hnone & raw & sig & _ & ->)]; [by left|].
    right. split; [done|]. by eexists.
  - left. destruct (db !! k) as [r|] eqn:Hold; [|done].
    by rewrite (executemany_keeps _ _ _ _ _ _ Hins Hold) in Hk.
Qed.

(** What one operation does to the row under a key: nothing, or
    [generate_card] creates it fresh, or [mark_as_used] redeems it. *)
Lemma step_lookup o db k :
  step o db !! k = db !! k \/
  (db !! k = None /\
   exists r', step o db !! k = Some r' /\ fresh_row r' /\
     exists faults tape now n, o = Generate faults tape now n) \/
  (exists f now r, o = Redeem f now k /\ db !! k = Some r /\
     step o db !! k =
     Some (Row (raw_part r) (signature r) (created_at r) true (Some now)
               (usage_count r + 1))).
Proof.
  destruct o as [faults tape now n|f card|f now card|f]; simpl;
    [|by left| |by left].
  - destruct (generate_card_table faults tape now db n k)
      as [Heq|(Hnone & r & Hr & Hfresh)]; [by left|].
    right. left. split; [done|]. exists r. by eauto 10.
  - destruct (mark_as_used_table f now db card) as [->|(r & Hr & ->)];
      [by left|].
    destruct (decide (card = k)) as [->|Hne].
    + right. right. exists f, now, r. by rewrite lookup_insert_eq.
    + left. by rewrite lookup_insert_ne.
Qed.

Lemma step_keeps_db_ok o db : db_ok db -> db_ok (step o db).
Proof.
  intros Hok k r' Hk.
  destruct (step_lookup o db k)
    as [Heq|[(_ & r & Hr & Hfresh & _)|(f & now & r & _ & Hr & Hnew)]].
  - rewrite Heq in Hk. by apply (Hok k).
  - rewrite Hr in Hk. simplify_eq.
    destruct Hfresh as (_ & Hat & Hcount). unfold row_ok.
    rewrite Hat, Hcount. split; [lia|]. split; [by intros [? ?]|lia].
  - rewrite Hnew in Hk. simplify_eq.
    destruct (Hok _ _ Hr) as [Hnonneg _]. unfold row_ok. simpl.
    split; [lia|]. split; [lia|by eexists].
Qed.


End Invariant.


(** Every table the engine can reach from the empty one satisfies the
    invariant of the records. *)
Lemma reachable_db_ok hmac_sha3_256 key db :
  reachable hmac_sha3_256 key db -> db_ok db.
Proof.
  induction 1 as [|o db _ IH]; [apply map_Forall_empty|].
  by apply step_keeps_db_ok.
Qed.

(** ** The definitions at work *)

Lemma generate_retries_witness :
  generate_card toy_hmac toy_key no_faults (const_tape 0) 200 toy_db 1
  = (Raise RuntimeError, toy_db) /\
  generate_card toy_hmac toy_key no_faults toy_retry_tape 300 toy_db 1
  = (Ok (lit "BBBBBBBBBBBBBBBB#8394a5b6c7"),
     <[lit "BBBBBBBBBBBBBBBB#8394a5b6c7" :=
         Row (lit "BBBBBBBBBBBBBBBB") (lit "8394a5b6c7") 300 false None 0]>
       toy_db).
Proof.
  split.
  - apply (generate_retries_whole_batches toy_hmac toy_key no_faults
             (const_tape 0) 200 toy_db 1 5).
    + lia.
    + intros i Hi. do 5 (destruct i as [|i]; [vm_compute; reflexivity|]). lia.
    + reflexivity.
  - apply (generate_retries_whole_batches toy_hmac toy_key no_faults
             toy_retry_tape 300 toy_db 1 4)
      with (cards := [(lit "BBBBBBBBBBBBBBBB#8394a5b6c7",
                       lit "BBBBBBBBBBBBBBBB", lit "8394a5b6c7")]).
    + lia.
    + intros i Hi. do 4 (destruct i as [|i]; [vm_compute; reflexivity|]). lia.
    + lia.
    + vm_compute. reflexivity.
    + vm_compute. reflexivity.
Defined.

Example split1_two : Py.split1 SEP (lit "AB#cd#e") = [lit "AB"; lit "cd#e"].
Proof. reflexivity. Qed.

Example split1_none : Py.split1 SEP (lit "ABcd") = [lit "ABcd"].
Proof. reflexivity. Qed.

Example hex_sample : Py.hex [x00; xa1; xff] = lit "00a1ff".
Proof. reflexivity. Qed.

Example encode_sample :
  Py.encode [233; 8364] = Some [xc3; xa9; xe2; x82; xac].
Proof. reflexivity. Qed.

Example encode_surrogate : Py.encode [65; 55296] = None.
Proof. reflexivity. Qed.

Example toy_card_verifies :
  verify_card toy_hmac toy_key NoFault toy_db toy_card
  = Ok (Verification true (Some false) 0 None).
Proof. vm_compute. reflexivity. Qed.

Example toy_card_storage_fault :
  verify_card toy_hmac toy_key ConnectFault toy_db toy_card
  = Ok (rejected ErrDatabase).
Proof. vm_compute. reflexivity. Qed.

Example generate_retry_then_success :
  (generate_card toy_hmac toy_key no_faults (fun i => i / 16)%nat 300 toy_db
     1).1 = Ok (lit "BBBBBBBBBBBBBBBB#8394a5b6c7").
Proof. vm_compute. reflexivity. Qed.

Example redeem_unknown_token :
  mark_as_used NoFault 5 toy_db (lit "BBBBBBBBBBBBBBBB#0123456789")
  = (Ok false, toy_db).
Proof. vm_compute. reflexivity. Qed.

Example redeem_surrogate_token :
  mark_as_used NoFault 5 toy_db [55296] = (Raise UnicodeEncodeError, toy_db).
Proof. vm_compute. reflexivity. Qed.

(** * Further properties of the engine *)

#[local] Set Warnings "-clear-no-such-hyp".

(** ** What verification accepts, and how it fails *)

Lemma utf8_char_None (c : N) : Py.utf8_char c = None <-> is_surrogate c.
Proof.
  unfold Py.utf8_char, is_surrogate.
  destruct (N.ltb_spec c 128); [split; [done|lia]|].
  destruct (N.ltb_spec c 2048); [split; [done|lia]|].
  destruct (N.leb_spec 55296 c), (N.leb_spec c 57343); simpl;
    try (split; [done|lia]);
    destruct (N.ltb_spec c 65536); split; try done; lia.
Qed.

Lemma encode_None_surrogate (s : list N) :
  Py.encode s = None <-> Exists is_surrogate s.
Proof.
  induction s as [|c s IH]; simpl.
  - split; [done|]. intros H. by apply Exists_nil in H.
  - rewrite Exists_cons, <- IH, <- utf8_char_None.
    destruct (Py.utf8_char c), (Py.encode s); naive_solver.
Qed.

Lemma isascii_encodable (s : list N) :
  Py.isascii s = true -> is_Some (Py.encode s).
Proof. intros H. destruct (encode_ascii _ H) as [b ->]. by eexists. Qed.

Lemma isascii_app_inv (a b : list N) :
  Py.isascii (a ++ b) = true -> Py.isascii a = true /\ Py.isascii b = true.
Proof. rewrite isascii_app. apply andb_prop. Qed.

Section VerifyMore.

Variable hmac_sha3_256 : list byte -> list byte -> list byte.
Variable key : list byte.

Local Abbreviation sign := (CardSystem.sign hmac_sha3_256 key).
Local Abbreviation verify_card := (CardSystem.verify_card hmac_sha3_256 key).

Implicit Types (db : gmap (list N) row) (card a b : list N).

(** X1. With a storage layer that works, [verify_card] answers
    [valid = True] exactly for the tokens that are a 16-character raw part
    free of [#], the separator and the 10-character signature of that raw
    part, and that are the key of a row; it then reports [is_used] and
    [usage_count] of that row. *)
Theorem verify_accepts_exactly_stored_signed db card v :
  (verify_card NoFault db card = Ok v /\ valid v = true) <->
  (exists a b r,
     card = a ++ SEP :: b /\ (SEP ∉ a) /\ length a = 16%nat /\
     length b = 10%nat /\ sign a = Ok b /\ db !! card = Some r /\
     v = Verification true (Some (is_used r)) (usage_count r) None).
Proof.
  split.
  - intros [Hv Hvalid]. by eapply verify_valid_inv.
  - intros (a & b & r & -> & Ha & Hla & Hlb & Hsig & Hr & ->).
    split; [|done]. rewrite verify_signed by done. by rewrite Hr.
Qed.

(** X2. [verify_card] raises only [TypeError] or [UnicodeEncodeError],
    and only on a token that holds a non-ASCII character: the unpacking of
    [card.split('#', 1)] never fails, and on an ASCII token the call
    always returns a dictionary. *)
Theorem verify_raises_only_on_non_ascii f db card e :
  verify_card f db card = Raise e ->
  (e = TypeError \/ e = UnicodeEncodeError) /\ Py.isascii card = false.
Proof.
  intros Hv.
  destruct (decide (SEP ∈ card)) as [Hin|Hnot];
    [|by rewrite verify_no_separator in Hv].
  destruct (first_sep_decompose _ _ Hin) as (a & b & -> & Ha).
  rewrite verify_split in Hv by done.
  destruct (negb _ || negb _); [done|].
  unfold mbind, result_bind, CardSystem.sign in Hv.
  rewrite isascii_app. simpl.
  destruct (Py.encode a) as [msg|] eqn:Henc.
  - unfold Py.compare_digest in Hv.
    assert (Py.isascii (take 10 (Py.hex (hmac_sha3_256 key msg))) = true)
      as Hex by apply lower_hex_ascii, Forall_take, hex_lower_hex.
    rewrite Hex, andb_true_r in Hv.
    destruct (Py.isascii b) eqn:Hb.
    + destruct (negb _); [done|]. exfalso.
      unfold lookup_card, Sql.bind_text in Hv.
      destruct (Py.isascii a) eqn:Haa.
      * assert (is_Some (Py.encode (a ++ SEP :: b))) as [m Hm].
        { apply isascii_encodable. rewrite isascii_app, Haa. simpl.
          by rewrite Hb. }
        rewrite Hm in Hv. unfold mbind, result_bind in Hv.
        destruct f; simpl in Hv; try done;
          by destruct (Sql.select_card _ db) as [[]|].
      * destruct (Py.encode (a ++ SEP :: b)) as [m|] eqn:Hm.
        -- unfold mbind, result_bind in Hv.
           destruct f; simpl in Hv; try done;
             by destruct (Sql.select_card _ db) as [[]|].
        -- apply encode_None_surrogate, Exists_app in Hm as [Hm|Hm].
           ++ apply encode_None_surrogate in Hm. congruence.
           ++ apply Exists_cons in Hm as [Hm|Hm];
                [unfold is_surrogate, SEP in Hm; lia|].
              apply Exists_exists in Hm as (c & Hc & Hsur).
              pose proof (elem_of_isascii _ _ Hb Hc).
              unfold is_surrogate in Hsur. lia.
    + simplify_eq. split; [by left|]. by rewrite andb_false_r.
  - simplify_eq. split; [by right|].
    destruct (Py.isascii a) eqn:Haa; [|done].
    destruct (encode_ascii _ Haa) as [? ?]. congruence.
Qed.

(** X3. The format, length and signature rejections are decided without
    the storage layer: the same token gets the same rejection whatever
    the table holds and whether or not the storage layer works. *)
Theorem structural_rejection_ignores_storage f db f' db' card e :
  verify_card f db card = Ok (rejected e) ->
  e = ErrFormat \/ e = ErrLength \/ e = ErrSignature ->
  verify_card f' db' card = Ok (rejected e).
Proof.
  intros Hv He.
  destruct (decide (SEP ∈ card)) as [Hin|Hnot].
  2: { rewrite verify_no_separator in Hv |- * by done. done. }
  destruct (first_sep_decompose _ _ Hin) as (a & b & -> & Ha).
  rewrite verify_split in Hv |- * by done.
  destruct (negb _ || negb _); [done|].
  unfold mbind, result_bind in Hv |- *.
  destruct (sign a) as [expected|]; [|done].
  destruct (Py.compare_digest b expected) as [same|]; [|done].
  destruct (negb same); [done|]. exfalso.
  unfold lookup_card, Sql.select_card, mbind, result_bind in Hv.
  destruct f; simpl in Hv;
    repeat (case_match; simplify_eq/=); naive_solver.
Qed.

(** X4. A token that carries the signature of its raw part is answered
    with the storage error when the connection or the SELECT fails,
    whether or not it is stored, and with "does not exist" only when the
    storage layer works and no row has that key. *)
Theorem storage_fault_is_not_absence f db a b :
  (SEP ∉ a) -> length a = 16%nat -> length b = 10%nat -> sign a = Ok b ->
  verify_card f db (a ++ SEP :: b) =
  match f with
  | ConnectFault | ExecuteFault => Ok (rejected ErrDatabase)
  | NoFault | CommitFault =>
      match db !! (a ++ SEP :: b) with
      | None => Ok (rejected ErrNotFound)
      | Some r =>
          Ok (Verification true (Some (is_used r)) (usage_count r) None)
      end
  end.
Proof.
  intros Ha Hla Hlb Hsig. rewrite verify_split by done.
  rewrite Hla, Hlb. simpl. rewrite Hsig. simpl.
  rewrite compare_digest_refl by (by eapply sign_isascii). simpl.
  assert (is_Some (Py.encode (a ++ SEP :: b))) as [m Hm].
  { destruct (sign_Ok _ _ _ _ Hsig) as (msg & Hmsg & _).
    destruct (encode_ascii _ (sign_isascii _ _ _ _ Hsig)) as [mb Hmb].
    exists (msg ++ Py.byte_of SEP :: mb). apply encode_app; [done|].
    simpl. by rewrite Hmb. }
  unfold lookup_card, Sql.bind_text, Sql.select_card. rewrite Hm.
  destruct f; simpl; try done; by destruct (db !! (a ++ SEP :: b)).
Qed.

End VerifyMore.

(** ** Generation: what a call adds and what it leaves *)

Section GenerateMore.

Variable hmac_sha3_256 : list byte -> list byte -> list byte.
Variable key : list byte.

Local Abbreviation generate_card :=
  (CardSystem.generate_card hmac_sha3_256 key).
Local Abbreviation generate_loop :=
  (CardSystem.generate_loop hmac_sha3_256 key).

Implicit Types (db : gmap (list N) row) (faults : nat -> fault).


Lemma generate_loop_Raise remaining a faults tape pos now n db e db' :
  generate_loop remaining a faults tape pos now n db = (Raise e, db') ->
  db' = db /\ e <> IntegrityError.
Proof.
  revert a pos. induction remaining as [|remaining IH]; intros a pos H.
  - simpl in H. by simplify_eq.
  - rewrite generate_loop_S in H.
    destruct (build_cards_total hmac_sha3_256 key n tape pos)
      as (cards & Hcards & _ & _).
    rewrite Hcards in H.
    destruct (insert_batch (faults a) now cards db) as [db1|e1] eqn:Hins.
    + apply insert_batch_Ok in Hins as [_ Hins].
      destruct cards; simpl in H, Hins; by simplify_eq.
    + destruct e1; try (by simplify_eq). by eapply IH.
Qed.


(** X6. A call of [generate_card] that raises, for whatever reason
    (attempts exhausted, empty batch, storage fault), leaves the table
    exactly as it found it, and the exception is never the
    [IntegrityError] of a collision. *)
Theorem generate_failure_leaves_table faults tape now db batch_size e db' :
  generate_card faults tape now db batch_size = (Raise e, db') ->
  db' = db /\ e <> IntegrityError.
Proof. apply generate_loop_Raise. Qed.

End GenerateMore.


Lemma generate_failure_leaves_table_witness :
  (generate_card toy_hmac toy_key no_faults (const_tape 0) 200 toy_db 1).2
  = toy_db.
Proof.
  eapply (generate_failure_leaves_table toy_hmac toy_key no_faults
            (const_tape 0) 200 toy_db 1 RuntimeError).
  vm_compute. reflexivity.
Defined.

(** ** Redemption as an update in place *)

Section RedeemMore.

Implicit Types (db : gmap (list N) row) (card : list N).

(** X7. The contract of [mark_as_used] for a token that can be sent to
    the storage layer, once the connection is open: the call never raises;
    it answers [True] exactly when the storage layer works and the token
    is the key of a row; it stores something exactly when it answers
    [True], and then only the row under the token is rewritten ([is_used],
    [used_at], and [usage_count + 1] while the counter stays an INTEGER);
    a fault of the UPDATE or of the commit gives [False] and stores
    nothing. *)
Theorem mark_as_used_contract f now db card :
  is_Some (Py.encode card) -> f <> ConnectFault ->
  (forall r, db !! card = Some r ->
     fits_int64 (usage_count r) /\ fits_int64 (usage_count r + 1)) ->
  mark_as_used f now db card =
  (Ok (bool_decide (f = NoFault /\ is_Some (db !! card))),
   if decide (f = NoFault) then alter (redeemed now) card db else db).
Proof.
  intros Henc Hf _. destruct (decide (f = NoFault)) as [->|Hne].
  - destruct (db !! card) as [r|] eqn:Hr.
    + rewrite (mark_as_used_stored _ _ _ _ Hr Henc).
      rewrite bool_decide_eq_true_2 by done. f_equal.
      apply map_eq. intros k. destruct (decide (card = k)) as [->|Hk].
      * by rewrite lookup_insert_eq, lookup_alter_eq, Hr.
      * by rewrite lookup_insert_ne, lookup_alter_ne.
    + rewrite (mark_as_used_absent _ _ _ Hr Henc).
      rewrite bool_decide_eq_false_2 by (by intros [_ [? ?]]). f_equal.
      apply map_eq. intros k. destruct (decide (card = k)) as [->|Hk].
      * by rewrite lookup_alter_eq, Hr.
      * by rewrite lookup_alter_ne.
  - rewrite bool_decide_eq_false_2 by (by intros [? _]).
    apply mark_as_used_caught; [|done].
    destruct f; [done|done|by left|by right].
Qed.

(** X8. Nothing in the code limits the redemptions of a card: while the
    counter stays within the range of an INTEGER, [n] calls of
    [mark_as_used] on a stored token make it grow by [n], and after at
    least one call the row is marked as used, with [used_at] the time of
    the last call. *)
Theorem redeem_many_counts nows db card r :
  db !! card = Some r -> is_Some (Py.encode card) ->
  fits_int64 (usage_count r) ->
  fits_int64 (usage_count r + Z.of_nat (length nows)) ->
  exists r',
    redeem_many nows db card !! card = Some r' /\
    usage_count r' = (usage_count r + Z.of_nat (length nows))%Z /\
    (nows <> [] -> is_used r' = true /\ used_at r' = last nows).
Proof.
  intros Hr Henc _ _. revert db r Hr.
  induction nows as [|now nows IH]; intros db r Hr.
  - exists r. simpl. split; [done|]. split; [lia|done].
  - cbn [redeem_many]. rewrite (mark_as_used_stored _ _ _ _ Hr Henc).
    cbn [snd].
    destruct (IH _ _ (lookup_insert_eq db card (redeemed now r)))
      as (r' & Hr' & Hcount & Hused).
    exists r'. split; [done|]. simpl in Hcount. split; [simpl; lia|].
    intros _. destruct nows as [|now' nows].
    + simpl in Hr'. rewrite lookup_insert_eq in Hr'. by simplify_eq.
    + destruct Hused as [Hu Hat]; [done|]. split; [done|].
      by rewrite Hat.
Qed.

End RedeemMore.

Lemma mark_as_used_contract_witness :
  mark_as_used NoFault 200 toy_db toy_card =
  (Ok (bool_decide (NoFault = NoFault /\ is_Some (toy_db !! toy_card))),
   if decide (NoFault = NoFault) then alter (redeemed 200) toy_card toy_db
   else toy_db).
Proof.
  apply (mark_as_used_contract NoFault 200 toy_db toy_card).
  - vm_compute. by eexists.
  - done.
  - intros r Hr. vm_compute in Hr. injection Hr as <-.
    unfold fits_int64, INT64_MIN, INT64_MAX. simpl. lia.
Defined.

Lemma redeem_many_counts_witness :
  exists r',
    redeem_many [200; 300; 400]%Z toy_db toy_card !! toy_card = Some r' /\
    usage_count r' = (0 + Z.of_nat 3)%Z /\
    ([200; 300; 400]%Z <> [] -> is_used r' = true /\ used_at r' = Some 400%Z).
Proof.
  apply (redeem_many_counts [200; 300; 400]%Z toy_db toy_card
           (Row (lit "AAAAAAAAAAAAAAAA") (lit "c4d5e6f708") 100 false None 0)).
  - vm_compute. reflexivity.
  - vm_compute. by eexists.
  - unfold fits_int64, INT64_MIN, INT64_MAX. simpl. lia.
  - unfold fits_int64, INT64_MIN, INT64_MAX. simpl. lia.
Defined.

(** ** Invariants of the reachable tables *)

Section ReachableMore.

Variable hmac_sha3_256 : list byte -> list byte -> list byte.
Variable key : list byte.

Local Abbreviation sign := (CardSystem.sign hmac_sha3_256 key).
Local Abbreviation verify_card := (CardSystem.verify_card hmac_sha3_256 key).
Local Abbreviation step := (step hmac_sha3_256 key).
Local Abbreviation reachable := (reachable hmac_sha3_256 key).
Local Abbreviation row_signed := (row_signed hmac_sha3_256 key).

Implicit Types (db : gmap (list N) row).

Lemma minted_row_signed tape now k raw sig :
  minted hmac_sha3_256 key tape (k, raw, sig) ->
  row_signed k (Row raw sig now false None 0).
Proof.
  intros (pos & Hraw & Hsig & Hk). simpl in *. subst raw.
  repeat split; try done.
  apply Forall_forall. intros c. apply random_raw_charset.
Qed.

Lemma step_keeps_signed o db :
  map_Forall row_signed db -> map_Forall row_signed (step o db).
Proof.
  intros Hok. destruct o as [faults tape now n|f card|f now card|f]; simpl;
    [|done| |done].
  - unfold generate_card.
    destruct (generate_loop_table hmac_sha3_256 key max_attempts 0 faults tape
                0 now (Z.to_nat n) db) as [->|(cards & Hminted & _ & Hins)];
      [done|].
    intros k r Hk.
    destruct (executemany_origin _ _ _ _ _ _ Hins Hk)
      as [Hold|(_ & raw & sig & Hin & ->)]; [by apply (Hok k)|].
    rewrite Forall_forall in Hminted.
    by apply (minted_row_signed tape), Hminted.
  - destruct (mark_as_used_table f now db card) as [->|(r & Hr & ->)];
      [done|].
    apply map_Forall_insert_2; [|done]. by apply (Hok _ _ Hr).
Qed.

Lemma reachable_signed db : reachable db -> map_Forall row_signed db.
Proof.
  induction 1 as [|o db _ IH]; [apply map_Forall_empty|].
  by apply step_keeps_signed.
Qed.

(** X9. In every table the engine can reach, the three usage columns of
    a record agree: [is_used] is true exactly when [usage_count] is
    positive, which is exactly when [used_at] is set, and the counter is
    never negative. *)
Theorem reachable_usage_columns_agree db :
  reachable db -> map_Forall (fun _ r => row_used_ok r) db.
Proof.
  induction 1 as [|o db _ IH]; [apply map_Forall_empty|].
  intros k r' Hk.
  destruct (step_lookup hmac_sha3_256 key o db k)
    as [Heq|[(_ & r & Hr & Hfresh & _)|(f & now & r & _ & Hr & Hnew)]].
  - rewrite Heq in Hk. by apply (IH k).
  - rewrite Hr in Hk. simplify_eq.
    destruct Hfresh as (Hu & Hat & Hcount). unfold row_used_ok.
    rewrite Hu, Hat, Hcount. repeat split; try done; try lia;
      by intros [? ?].
  - rewrite Hnew in Hk. simplify_eq.
    destruct (IH _ _ Hr) as (_ & _ & Hnonneg). unfold row_used_ok. simpl.
    repeat split; try done; try lia; by eexists.
Qed.

(** X10. In every table the engine can reach, a key has the wire format
    and agrees with the columns of its row: it is 27 characters long, its
    first 16 characters are [raw_part], drawn from [charset], character 16
    is the separator, and the last 10 are [signature], lowercase
    hexadecimal digits that are the signature of [raw_part]. *)
Theorem reachable_keys_have_wire_format db k r :
  (forall key' m, length (hmac_sha3_256 key' m) = 32%nat) ->
  reachable db -> db !! k = Some r ->
  length k = 27%nat /\ take 16 k = raw_part r /\
  k !! 16%nat = Some SEP /\ drop 17 k = signature r /\
  Forall (fun c => c ∈ charset) (raw_part r) /\
  Forall is_lower_hex (signature r) /\
  sign (raw_part r) = Ok (signature r).
Proof.
  intros Hdigest Hreach Hk.
  destruct (reachable_signed db Hreach k r Hk) as (-> & Hsig & Hlen & Hcs).
  pose proof (sign_length _ _ _ _ Hdigest Hsig) as Hlsig.
  split; [rewrite length_app; simpl; lia|].
  split; [by rewrite take_app_length'|].
  split; [rewrite lookup_app_r by lia; by rewrite Hlen|].
  split; [rewrite drop_app_ge by lia; by rewrite Hlen|].
  split; [done|]. split; [by eapply sign_lower_hex|done].
Qed.

(** X11. In every table the engine can reach, with a storage layer that
    works, a stored card is accepted by [verify_card] exactly when its raw
    part holds no separator, and the answer then reports [is_used] and
    [usage_count] as stored; a stored card whose raw part holds the
    separator gets the length error. *)
Theorem reachable_card_verifies_unless_separator db card r :
  (forall key' m, length (hmac_sha3_256 key' m) = 32%nat) ->
  reachable db -> db !! card = Some r ->
  verify_card NoFault db card =
  if decide (SEP ∈ raw_part r) then Ok (rejected ErrLength)
  else Ok (Verification true (Some (is_used r)) (usage_count r) None).
Proof.
  intros Hdigest Hreach Hr.
  destruct (reachable_signed db Hreach card r Hr) as (Hk & Hsig & Hlen & Hcs).
  case_decide as Hsep.
  - destruct (first_sep_decompose _ _ Hsep) as (a & b & Hsplit & Ha).
    rewrite Hk, Hsplit, <- app_assoc. simpl.
    apply verify_bad_length; [done|]. left.
    rewrite Hsplit, length_app in Hlen. simpl in Hlen. lia.
  - pose proof (verify_signed hmac_sha3_256 key db _ _ Hsep Hlen
                  (sign_length _ _ _ _ Hdigest Hsig) Hsig) as Hv.
    rewrite <- Hk in Hv. by rewrite Hv, Hr.
Qed.


End ReachableMore.

Lemma toy_db_reachable : reachable toy_hmac toy_key toy_db.
Proof.
  apply (reachable_step toy_hmac toy_key
           (Generate no_faults (const_tape 0) 100 1) ∅).
  apply reachable_init.
Qed.

Lemma reachable_usage_columns_agree_witness :
  map_Forall (fun _ r => row_used_ok r)
    (step toy_hmac toy_key (Generate no_faults toy_retry_tape 300 1)
       (step toy_hmac toy_key (Redeem NoFault 200 toy_card) toy_db)).
Proof.
  apply (reachable_usage_columns_agree toy_hmac toy_key).
  apply reachable_step, reachable_step, toy_db_reachable.
Defined.

Example redeemed_then_generated_table :
  let db := step toy_hmac toy_key (Generate no_faults toy_retry_tape 300 1)
              (step toy_hmac toy_key (Redeem NoFault 200 toy_card) toy_db) in
  db !! toy_card
  = Some (Row (lit "AAAAAAAAAAAAAAAA") (lit "c4d5e6f708") 100 true
              (Some 200%Z) 1) /\
  db !! lit "BBBBBBBBBBBBBBBB#8394a5b6c7"
  = Some (Row (lit "BBBBBBBBBBBBBBBB") (lit "8394a5b6c7") 300 false None 0).
Proof. vm_compute. by split. Qed.

Lemma toy_hmac_digest_size k m : length (toy_hmac k m) = 32%nat.
Proof. reflexivity. Qed.

Lemma reachable_keys_have_wire_format_witness :
  length toy_card = 27%nat /\ take 16 toy_card = lit "AAAAAAAAAAAAAAAA".
Proof.
  destruct (reachable_keys_have_wire_format toy_hmac toy_key toy_db toy_card
              (Row (lit "AAAAAAAAAAAAAAAA") (lit "c4d5e6f708") 100 false None 0)
              toy_hmac_digest_size toy_db_reachable)
    as (Hlen & Htake & _).
  - vm_compute. reflexivity.
  - by split.
Defined.

Lemma reachable_card_verifies_witness :
  verify_card toy_hmac toy_key NoFault toy_db toy_card =
  Ok (Verification true (Some false) 0 None).
Proof.
  apply (reachable_card_verifies_unless_separator toy_hmac toy_key toy_db
           toy_card
           (Row (lit "AAAAAAAAAAAAAAAA") (lit "c4d5e6f708") 100 false None 0)
           toy_hmac_digest_size toy_db_reachable).
  vm_compute. reflexivity.
Defined.


(** ** Statistics across a redemption *)

Section StatsMore.

Local Open Scope Z_scope.

Implicit Types (db : gmap (list N) row).

Lemma sql_sum_perm (xs ys : list Z) : xs ≡ₚ ys -> Sql.sum xs = Sql.sum ys.
Proof.
  intros Hp. rewrite !sql_sum_spec.
  destruct xs as [|x xs], ys as [|y ys]; try done.
  - by apply Permutation_nil_cons in Hp.
  - symmetry in Hp. by apply Permutation_nil_cons in Hp.
  - by rewrite (list_sum_perm _ _ Hp).
Qed.

Lemma sql_min_perm (xs ys : list Z) : xs ≡ₚ ys -> Sql.min xs = Sql.min ys.
Proof.
  intros Hp. destruct xs as [|x xs], ys as [|y ys]; try done.
  - by apply Permutation_nil_cons in Hp.
  - symmetry in Hp. by apply Permutation_nil_cons in Hp.
  - destruct (sql_min_spec x xs) as (m & -> & Hin & Hle).
    destruct (sql_min_spec y ys) as (m' & -> & Hin' & Hle').
    f_equal.
    assert (m ∈ y :: ys) as Hm by (by rewrite <- Hp).
    assert (m' ∈ x :: xs) as Hm' by (by rewrite Hp).
    specialize (Hle _ Hm'). specialize (Hle' _ Hm). lia.
Qed.

Lemma sql_max_perm (xs ys : list Z) : xs ≡ₚ ys -> Sql.max xs = Sql.max ys.
Proof.
  intros Hp. destruct xs as [|x xs], ys as [|y ys]; try done.
  - by apply Permutation_nil_cons in Hp.
  - symmetry in Hp. by apply Permutation_nil_cons in Hp.
  - destruct (sql_max_spec x xs) as (m & -> & Hin & Hle).
    destruct (sql_max_spec y ys) as (m' & -> & Hin' & Hle').
    f_equal.
    assert (m ∈ y :: ys) as Hm by (by rewrite <- Hp).
    assert (m' ∈ x :: xs) as Hm' by (by rewrite Hp).
    specialize (Hle _ Hm'). specialize (Hle' _ Hm). lia.
Qed.

(** The aggregates do not depend on the order of the rows. *)
Lemma get_card_stats_perm db rs :
  Sql.rows db ≡ₚ rs ->
  get_card_stats NoFault db =
  Ok (Stats (Z.of_nat (length rs))
            (Sql.sum (map (fun r => Z.b2z (is_used r)) rs))
            (Sql.sum (map usage_count rs))
            (Sql.min (map created_at rs))
            (Sql.max (map created_at rs))).
Proof.
  intros Hp. unfold get_card_stats.
  rewrite (Permutation_length Hp).
  rewrite (sql_sum_perm _ _ (Permutation_map (fun r => Z.b2z (is_used r)) Hp)).
  rewrite (sql_sum_perm _ _ (Permutation_map usage_count Hp)).
  rewrite (sql_min_perm _ _ (Permutation_map created_at Hp)).
  by rewrite (sql_max_perm _ _ (Permutation_map created_at Hp)).
Qed.

Lemma rows_stored db k r :
  db !! k = Some r -> Sql.rows db ≡ₚ r :: Sql.rows (delete k db).
Proof.
  intros Hr. rewrite <- (insert_delete_id db k r Hr) at 1.
  apply rows_insert, lookup_delete_eq.
Qed.

(** X13. While the counters are not negative and their sum stays below
    the largest INTEGER, a redemption of a stored card changes the
    statistics in two places only: [total_uses] grows by one, and
    [used_count] grows by one when the card was not marked as used before
    and stays otherwise; [total], [oldest] and [newest] are as they
    were. *)
Theorem stats_after_redemption now db card r st :
  db !! card = Some r -> is_Some (Py.encode card) ->
  map_Forall (fun _ r0 => 0 <= usage_count r0) db ->
  column_sum usage_count db < INT64_MAX ->
  get_card_stats NoFault db = Ok st ->
  get_card_stats NoFault (mark_as_used NoFault now db card).2 =
  Ok (Stats (total st)
            ((fun u => u + (if is_used r then 0 else 1)) <$> used_count st)
            ((fun u => u + 1) <$> total_uses st)
            (oldest st) (newest st)).
Proof.
  intros Hr Henc _ _ Hst.
  rewrite (get_card_stats_perm db _ (rows_stored db card r Hr)) in Hst.
  rewrite (mark_as_used_stored _ _ _ _ Hr Henc). cbn [snd].
  rewrite (get_card_stats_perm _ (redeemed now r :: Sql.rows (delete card db))).
  2: { rewrite <- insert_delete_eq. apply rows_insert, lookup_delete_eq. }
  simplify_eq. cbn [total used_count total_uses oldest newest map length].
  rewrite !sql_sum_spec. cbn [fmap option_fmap option_map].
  f_equal. f_equal.
  - f_equal. rewrite !list_sum_cons. simpl. destruct (is_used r); simpl; lia.
  - f_equal. rewrite !list_sum_cons. simpl. lia.
Qed.

End StatsMore.

Lemma stats_after_redemption_witness :
  get_card_stats NoFault
    (mark_as_used NoFault 400
       (mark_as_used NoFault 200 toy_db toy_card).2 toy_card).2 =
  Ok (Stats 1 (Some 1%Z) (Some 2%Z) (Some 100%Z) (Some 100%Z)).
Proof.
  apply (stats_after_redemption 400
           (mark_as_used NoFault 200 toy_db toy_card).2 toy_card
           (Row (lit "AAAAAAAAAAAAAAAA") (lit "c4d5e6f708") 100 true
                (Some 200%Z) 1)
           (Stats 1 (Some 1%Z) (Some 1%Z) (Some 100%Z) (Some 100%Z))).
  - vm_compute. reflexivity.
  - vm_compute. by eexists.
  - apply (bool_decide_unpack _). vm_compute. exact I.
  - vm_compute. reflexivity.
  - vm_compute. reflexivity.
Defined.

(** ** The signer *)

Section SignMore.

Variable hmac_sha3_256 : list byte -> list byte -> list byte.
Variable key : list byte.

Local Abbreviation sign := (CardSystem.sign hmac_sha3_256 key).

(** X14. The signer fails only by raising [UnicodeEncodeError], and
    exactly on a raw part that holds a surrogate code point; on every
    other raw part it returns, with a 32-byte digest, ten lowercase
    hexadecimal digits, none of which is the separator. *)
Theorem sign_fails_exactly_on_surrogates raw :
  (forall key' m, length (hmac_sha3_256 key' m) = 32%nat) ->
  (sign raw = Raise UnicodeEncodeError <-> Exists is_surrogate raw) /\
  (~ Exists is_surrogate raw ->
   exists sig, sign raw = Ok sig /\ length sig = 10%nat /\
               Forall is_lower_hex sig /\ (SEP ∉ sig)).
Proof.
  intros Hdigest. rewrite <- encode_None_surrogate. split.
  - unfold CardSystem.sign. destruct (Py.encode raw); split; done.
  - intros Henc. destruct (Py.encode raw) as [msg|] eqn:Hmsg; [|done].
    assert (sign raw = Ok (take 10 (Py.hex (hmac_sha3_256 key msg)))) as Hsig
      by (unfold CardSystem.sign; by rewrite Hmsg).
    eexists. split; [exact Hsig|].
    split; [by eapply sign_length|].
    split; [by eapply sign_lower_hex|].
    by eapply lower_hex_no_sep, sign_lower_hex.
Qed.

End SignMore.

Lemma sign_fails_exactly_on_surrogates_witness :
  sign toy_hmac toy_key [65; 55296] = Raise UnicodeEncodeError.
Proof.
  apply (sign_fails_exactly_on_surrogates toy_hmac toy_key [65; 55296]
           toy_hmac_digest_size).
  apply Exists_cons. right. apply Exists_cons. left.
  unfold is_surrogate. lia.
Defined.

(** ** The key custodian and start-up *)

Section KeyCustodian.

Implicit Types (d : database) (entropy : nat -> byte).

Lemma load_or_generate_key_Ok f entropy d k d' :
  load_or_generate_key f entropy d = (Ok k, d') ->
  cards_table d' = cards_table d /\
  stored_key d' = Some k /\
  is_Some (secrets_table d') /\
  match stored_key d with
  | Some k0 => k = k0
  | None => f = NoFault /\ k = token_bytes entropy 32
  end.
Proof.
  unfold load_or_generate_key, stored_key. intros H.
  destruct f; try done.
  all: destruct (default ∅ (secrets_table d) !! HMAC_KEY) as [k0|] eqn:Hk0;
    simplify_eq; simpl; try done.
  by rewrite lookup_insert_eq.
Qed.

Lemma load_or_generate_key_stored f entropy d k :
  f = NoFault \/ f = CommitFault ->
  stored_key d = Some k -> is_Some (secrets_table d) ->
  load_or_generate_key f entropy d = (Ok k, d).
Proof.
  unfold load_or_generate_key, stored_key. intros Hf Hk [t Ht].
  destruct d as [c st]. simpl in *. subst st. simpl in *.
  destruct Hf as [-> | ->]; by rewrite Hk.
Qed.

(** X15. The key is created once: a call of [_load_or_generate_key] that
    returns leaves a database on which every later call that reaches the
    SELECT returns the same key, whatever the entropy source says then,
    and writes nothing. The first call returns the stored value when
    there is one and 32 fresh bytes otherwise, and never touches the
    table [cards]. *)
Theorem key_is_created_once f entropy d k d' :
  load_or_generate_key f entropy d = (Ok k, d') ->
  (forall f' entropy',
     f' = NoFault \/ f' = CommitFault ->
     load_or_generate_key f' entropy' d' = (Ok k, d')) /\
  cards_table d' = cards_table d /\
  match stored_key d with
  | Some k0 => k = k0
  | None => k = token_bytes entropy 32 /\ length k = 32%nat
  end.
Proof.
  intros H.
  destruct (load_or_generate_key_Ok _ _ _ _ _ H) as (Hcards & Hkey & Hsome & Hk).
  split; [|split; [done|]].
  - intros f' entropy' Hf'. by apply load_or_generate_key_stored.
  - destruct (stored_key d); [done|]. destruct Hk as [_ ->]. by split.
Qed.

Lemma new_card_system_Ok f_init f_key entropy d k d1 :
  new_card_system f_init f_key entropy d = (Ok k, d1) ->
  cards_table d1 = Some (default ∅ (cards_table d)) /\
  stored_key d1 = Some k /\ is_Some (secrets_table d1) /\
  match stored_key d with
  | Some k0 => k = k0
  | None => k = token_bytes entropy 32
  end.
Proof.
  unfold new_card_system, init_db. intros H.
  destruct f_init; try done.
  all: apply load_or_generate_key_Ok in H as (Hc & Hk & Hs & Hm).
  all: unfold stored_key in *; simpl in *.
  all: repeat split; try done.
  all: destruct (default ∅ (secrets_table d) !! HMAC_KEY); [done|tauto].
Qed.

(** X16. Restarting keeps what was there: when [CardSystem()] returns,
    the table [cards] exists and holds exactly the rows it held before
    (none if it was absent), and building the object again on the
    resulting database, with a storage layer that works, returns the same
    key and changes nothing. *)
Theorem restart_keeps_key_and_cards f_init f_key entropy d k d1 :
  new_card_system f_init f_key entropy d = (Ok k, d1) ->
  cards_table d1 = Some (default ∅ (cards_table d)) /\
  (forall entropy', new_card_system NoFault NoFault entropy' d1 = (Ok k, d1)).
Proof.
  intros H.
  destruct (new_card_system_Ok _ _ _ _ _ _ H) as (Hc & Hk & Hs & _).
  split; [done|]. intros entropy'. unfold new_card_system, init_db.
  assert (Database (Some (default ∅ (cards_table d1))) (secrets_table d1) = d1)
    as ->.
  { destruct d1 as [c st]. simpl in *. by subst c. }
  apply load_or_generate_key_stored; [by left|done|done].
Qed.

End KeyCustodian.

Lemma key_is_created_once_witness :
  load_or_generate_key NoFault (fun _ => x00)
    (load_or_generate_key NoFault toy_entropy (Database None None)).2
  = (Ok (token_bytes toy_entropy 32),
     (load_or_generate_key NoFault toy_entropy (Database None None)).2).
Proof.
  apply (key_is_created_once NoFault toy_entropy (Database None None)
           (token_bytes toy_entropy 32)
           (load_or_generate_key NoFault toy_entropy (Database None None)).2).
  - reflexivity.
  - by left.
Defined.

Lemma restart_keeps_key_and_cards_witness :
  new_card_system NoFault NoFault (fun _ => x00)
    (new_card_system NoFault NoFault toy_entropy
       (Database (Some toy_db) None)).2
  = (Ok (token_bytes toy_entropy 32),
     (new_card_system NoFault NoFault toy_entropy
        (Database (Some toy_db) None)).2).
Proof.
  apply (restart_keeps_key_and_cards NoFault NoFault toy_entropy
           (Database (Some toy_db) None) (token_bytes toy_entropy 32)).
  reflexivity.
Defined.

(** ** The script *)

Section Script.

Variable hmac_sha3_256 : list byte -> list byte -> list byte.

Implicit Types (t : gmap (list N) row) (d : database) (e : session_env).

(** What a session does to the table: [generate_card] may add fresh
    rows, and then at most the row of the entered token is redeemed, which
    takes the answer ["y"] and a row that was not marked as used. *)
Lemma session_table key e t n s out res t' :
  session hmac_sha3_256 key e t n s = (out, res, t') ->
  exists t1,
    (forall k, t1 !! k = t !! k \/
       (t !! k = None /\ exists r, t1 !! k = Some r /\ fresh_row r)) /\
    (t' = t1 \/
     (s = lit "y" /\ exists r1,
        t1 !! n = Some r1 /\ is_used r1 = false /\
        t' = <[n := redeemed (mark_now e) r1]> t1)).
Proof.
  unfold session. intros H.
  pose proof (generate_card_table hmac_sha3_256 key (gen_faults e) (gen_tape e)
                (gen_now e) t 100) as Hgen. simpl in Hgen.
  destruct (generate_card hmac_sha3_256 key (gen_faults e) (gen_tape e)
              (gen_now e) t 100) as [[new_card|x] t1].
  2: { simplify_eq. exists t'. split; [done|by left]. }
  simpl in Hgen. exists t1. split; [done|].
  destruct (verify_card hmac_sha3_256 key (verify_new_fault e) t1 new_card);
    [|simplify_eq; by left].
  destruct (get_card_stats (stats_fault e) t1); [|simplify_eq; by left].
  destruct (verify_card hmac_sha3_256 key (verify_input_fault e) t1 n)
    as [v|] eqn:Hv; [|simplify_eq; by left].
  destruct (valid v && negb (default false (v_is_used v))) eqn:Hcond;
    [|simplify_eq; by left].
  apply andb_prop in Hcond as [Hvalid Hunused].
  destruct (verify_valid_inv _ _ _ _ _ _ Hv Hvalid)
    as (raw & sig & r1 & _ & _ & _ & _ & _ & Hr1 & ->).
  simpl in Hunused. apply negb_true_iff in Hunused.
  case_bool_decide as Hy.
  - destruct (mark_as_used_table (mark_fault e) (mark_now e) t1 n)
      as [Hsame|(r & Hr & Hnew)].
    + destruct (mark_as_used (mark_fault e) (mark_now e) t1 n) as [[?|?] t2];
        simpl in Hsame; simplify_eq; by left.
    + destruct (mark_as_used (mark_fault e) (mark_now e) t1 n) as [[?|?] t2];
        simpl in Hnew; simplify_eq; right; split; try done; by eexists.
  - case_bool_decide; simplify_eq; by left.
Qed.


Lemma generate_card_single_use key faults tape now t batch_size :
  single_use t ->
  single_use
    (generate_card hmac_sha3_256 key faults tape now t batch_size).2.
Proof.
  intros Hok k r Hk.
  destruct (generate_card_table hmac_sha3_256 key faults tape now t batch_size
              k) as [Heq|(_ & r0 & Hr0 & Hfresh)].
  - rewrite Heq in Hk. by apply (Hok k).
  - rewrite Hr0 in Hk. simplify_eq.
    destruct Hfresh as (? & _ & ?). by left.
Qed.

Lemma generate_card_leaves_row key faults tape now batch_size n :
  leaves_row n
    (fun t => (generate_card hmac_sha3_256 key faults tape now t
                 batch_size).2).
Proof.
  intros t r Hr.
  destruct (generate_card_table hmac_sha3_256 key faults tape now t batch_size
              n) as [Heq|(Hnone & _)]; [by rewrite Heq|congruence].
Qed.

(** A run that has the table to itself keeps every card redeemed at most
    once. *)
Lemma session_single_use key e t n s out res t' :
  single_use t ->
  session hmac_sha3_256 key e t n s = (out, res, t') ->
  single_use t'.
Proof.
  intros Hok Hs.
  destruct (session_table _ _ _ _ _ _ _ _ Hs) as (t1 & Hgen & Hmark).
  assert (single_use t1) as Hok1.
  { intros k r Hk. destruct (Hgen k) as [Heq|(_ & r0 & Hr0 & Hfresh)].
    - rewrite Heq in Hk. by apply (Hok k).
    - rewrite Hr0 in Hk. simplify_eq.
      destruct Hfresh as (? & _ & ?). by left. }
  destruct Hmark as [->|(_ & r1 & Hr1 & Hunused & ->)]; [done|].
  apply map_Forall_insert_2; [|done]. right. simpl.
  destruct (Hok1 _ _ Hr1) as [[-> _]|[_ ?]]; [done|congruence].
Qed.

(** A run beside which no other process writes is a run that has the
    table to itself. *)
Lemma session_shared_alone key e t n s :
  session_shared hmac_sha3_256 key e alone t n s
  = session hmac_sha3_256 key e t n s.
Proof. reflexivity. Qed.

(** X18. A run of the script on a table that other processes write to as
    well keeps every card redeemed at most once, PROVIDED the other
    processes do so themselves and none of them touches the row of the
    entered token between the run's [verify_card(n)] and its
    [mark_as_used(n)], the window in which the script sleeps and waits for
    the answer. [mark_as_used] itself would count a second redemption:
    what protects the card is only that the script asks to redeem a card
    that [verify_card] has just reported as unused. *)
Theorem shared_session_keeps_single_use key e ov t n s out res t' :
  single_use t ->
  keeps_single_use (after_generate ov) ->
  keeps_single_use (after_verify_new ov) ->
  keeps_single_use (after_stats ov) ->
  keeps_single_use (after_verify_input ov) ->
  leaves_row n (after_verify_input ov) ->
  session_shared hmac_sha3_256 key e ov t n s = (out, res, t') ->
  single_use t'.
Proof.
  intros Hok Hg Hvn Hst Hvi Hrow Hs. unfold session_shared in Hs.
  pose proof (generate_card_single_use key (gen_faults e) (gen_tape e)
                (gen_now e) t 100 Hok) as Hok1.
  destruct (generate_card hmac_sha3_256 key (gen_faults e) (gen_tape e)
              (gen_now e) t 100) as [[new_card|x] t1]; simpl in Hok1;
    [|by simplify_eq].
  apply Hg in Hok1.
  destruct (verify_card hmac_sha3_256 key (verify_new_fault e)
              (after_generate ov t1) new_card); [|by simplify_eq].
  apply Hvn in Hok1.
  destruct (get_card_stats (stats_fault e)
              (after_verify_new ov (after_generate ov t1)));
    [|by simplify_eq].
  apply Hst in Hok1.
  set (t4 := after_stats ov (after_verify_new ov (after_generate ov t1)))
    in *.
  destruct (verify_card hmac_sha3_256 key (verify_input_fault e) t4 n)
    as [v|] eqn:Hv; [|by simplify_eq].
  destruct (valid v && negb (default false (v_is_used v))) eqn:Hcond;
    [|by simplify_eq].
  apply andb_prop in Hcond as [Hvalid Hunused].
  destruct (verify_valid_inv _ _ _ _ _ _ Hv Hvalid)
    as (raw & sig & r1 & _ & _ & _ & _ & _ & Hr1 & ->).
  simpl in Hunused. apply negb_true_iff in Hunused.
  case_bool_decide as Hy.
  - apply Hrow in Hr1. apply Hvi in Hok1.
    destruct (mark_as_used_table (mark_fault e) (mark_now e)
                (after_verify_input ov t4) n) as [Hsame|(r & Hr & Hnew)].
    + destruct (mark_as_used (mark_fault e) (mark_now e)
                  (after_verify_input ov t4) n) as [[?|?] t6];
        simpl in Hsame; by simplify_eq.
    + destruct (mark_as_used (mark_fault e) (mark_now e)
                  (after_verify_input ov t4) n) as [[?|?] t6];
        simpl in Hnew; simplify_eq.
      all: apply map_Forall_insert_2; [|done]; right; simpl.
      all: destruct (Hok1 _ _ Hr1) as [[-> _]|[_ ?]]; [done|congruence].
  - case_bool_decide; by simplify_eq.
Qed.


Lemma new_card_system_database f_init f_key entropy d res d1 :
  new_card_system f_init f_key entropy d = (res, d1) ->
  (stored_key d = None \/ stored_key d1 = stored_key d) /\
  (cards_table d1 = cards_table d \/
   cards_table d1 = Some (default ∅ (cards_table d))) /\
  (forall k, res = Ok k ->
     cards_table d1 = Some (default ∅ (cards_table d))).
Proof.
  unfold new_card_system, init_db, load_or_generate_key, stored_key.
  intros H. destruct f_init; simpl in H.
  2,3: simplify_eq; split; [by right|]; split; [by left|done].
  all: destruct f_key; simpl in H.
  all: try (simplify_eq; simpl; split; [by right|]; split; [by right|done]).
  all: destruct (default ∅ (secrets_table d) !! HMAC_KEY) as [k0|] eqn:Hk0;
    simplify_eq; simpl.
  all: try (split; [by right|]; split; [by right|done]).
  all: split; [by left|]; split; [by right|done].
Qed.

Lemma main_database f_init f_key entropy e d n s :
  let d' := (main hmac_sha3_256 f_init f_key entropy e d n s).2 in
  (stored_key d = None \/ stored_key d' = stored_key d) /\
  (cards_table d' = cards_table d \/
   cards_table d' = Some (default ∅ (cards_table d)) \/
   exists key out res t',
     cards_table d' = Some t' /\
     session hmac_sha3_256 key e (default ∅ (cards_table d)) n s
     = (out, res, t')).
Proof.
  unfold main.
  destruct (new_card_system f_init f_key entropy d) as [[k|x] d1] eqn:Hnew.
  - destruct (new_card_system_database _ _ _ _ _ _ Hnew) as (Hkey & _ & Hc).
    rewrite (Hc k eq_refl).
    destruct (session hmac_sha3_256 k e (default ∅ (cards_table d)) n s)
      as [[out res] t'] eqn:Hs.
    simpl. split; [done|]. right. right. by exists k, out, res, t'.
  - destruct (new_card_system_database _ _ _ _ _ _ Hnew) as (Hkey & Hc & _).
    simpl. split; [done|]. destruct Hc as [->| ->]; [by left|right; by left].
Qed.

Lemma main_creates_cards f_key entropy e d n s :
  is_Some (cards_table (main hmac_sha3_256 NoFault f_key entropy e d n s).2).
Proof.
  unfold main.
  destruct (new_card_system NoFault f_key entropy d) as [[k|x] d1] eqn:Hnew.
  - destruct (new_card_system_database _ _ _ _ _ _ Hnew) as (_ & _ & Hc).
    rewrite (Hc k eq_refl).
    by destruct (session hmac_sha3_256 k e (default ∅ (cards_table d)) n s)
      as [[out res] t'].
  - unfold new_card_system, init_db, load_or_generate_key in Hnew.
    simpl in Hnew. destruct f_key; simpl in Hnew; try by simplify_eq.
    all: destruct (default ∅ (secrets_table d) !! HMAC_KEY);
      by simplify_eq.
Qed.

(** X19. When runs of the script come one after the other on a database
    that started absent, each run ending before the next one starts, then
    whatever is entered and whatever the storage layer does, no card is
    redeemed twice: in the table [cards] every counter is 0 or 1, and
    [is_used] is set exactly when it is 1. (Runs that overlap are another
    matter: see X18 and X21.) *)
Theorem consecutive_runs_never_redeem_twice d t :
  script_reachable hmac_sha3_256 d -> cards_table d = Some t ->
  single_use t.
Proof.
  intros Hreach. revert t.
  induction Hreach as [|f_init f_key entropy e d n s _ IH]; intros t Ht;
    [done|].
  assert (single_use (default ∅ (cards_table d))) as Hok.
  { destruct (cards_table d) as [t1|]; simpl;
      [by apply IH | apply map_Forall_empty]. }
  destruct (main_database f_init f_key entropy e d n s)
    as [_ [Heq|[Heq|(key & out & res & t' & Ht' & Hs)]]].
  - rewrite Heq in Ht. by apply IH.
  - rewrite Heq in Ht. by simplify_eq.
  - rewrite Ht' in Ht. simplify_eq.
    by eapply session_single_use.
Qed.

(** X20. The script never replaces the key: once the database holds a
    key, it holds the same key after any run, whatever the run does. *)
Theorem script_keeps_the_key f_init f_key entropy e d n s k :
  stored_key d = Some k ->
  stored_key (main hmac_sha3_256 f_init f_key entropy e d n s).2 = Some k.
Proof.
  intros Hk.
  destruct (main_database f_init f_key entropy e d n s) as [[Hnone|Heq] _].
  - congruence.
  - by rewrite Heq.
Qed.

End Script.

(** ** The further properties at work *)

Lemma verify_raises_only_on_non_ascii_witness :
  (TypeError = TypeError \/ TypeError = UnicodeEncodeError) /\
  Py.isascii (replace_char 17 233 toy_card) = false.
Proof.
  apply (verify_raises_only_on_non_ascii toy_hmac toy_key NoFault toy_db
           (replace_char 17 233 toy_card) TypeError).
  vm_compute. reflexivity.
Defined.

Lemma structural_rejection_ignores_storage_witness :
  verify_card toy_hmac toy_key ConnectFault toy_db
    (lit "AAAAAAAAAAAAAAAA#12345#7890") = Ok (rejected ErrSignature).
Proof.
  apply (structural_rejection_ignores_storage toy_hmac toy_key NoFault ∅
           ConnectFault toy_db (lit "AAAAAAAAAAAAAAAA#12345#7890")
           ErrSignature).
  - vm_compute. reflexivity.
  - right. by right.
Defined.

Lemma storage_fault_is_not_absence_witness :
  verify_card toy_hmac toy_key ConnectFault toy_db
    (lit "AAAAAAAAAAAAAAAA" ++ SEP :: lit "c4d5e6f708")
  = Ok (rejected ErrDatabase).
Proof.
  apply (storage_fault_is_not_absence toy_hmac toy_key ConnectFault toy_db
           (lit "AAAAAAAAAAAAAAAA") (lit "c4d5e6f708")).
  - apply contains_false. reflexivity.
  - reflexivity.
  - reflexivity.
  - vm_compute. reflexivity.
Defined.

Lemma toy_db_single_use : single_use toy_db.
Proof.
  unfold single_use. apply (bool_decide_unpack _). vm_compute. exact I.
Qed.


Lemma toy_overlap_keeps_single_use :
  keeps_single_use (after_verify_input toy_overlap).
Proof. intros t. apply generate_card_single_use. Qed.

Lemma shared_session_keeps_single_use_witness :
  single_use
    (session_shared toy_hmac toy_key toy_env toy_overlap toy_db toy_card
       (lit "y")).2.
Proof.
  apply (shared_session_keeps_single_use toy_hmac toy_key toy_env toy_overlap
           toy_db toy_card (lit "y")
           (session_shared toy_hmac toy_key toy_env toy_overlap toy_db
              toy_card (lit "y")).1.1
           (session_shared toy_hmac toy_key toy_env toy_overlap toy_db
              toy_card (lit "y")).1.2).
  - apply toy_db_single_use.
  - by intros t.
  - by intros t.
  - by intros t.
  - apply toy_overlap_keeps_single_use.
  - apply (generate_card_leaves_row toy_hmac toy_key no_faults (const_tape 1)
             550 1 toy_card).
  - by destruct (session_shared toy_hmac toy_key toy_env toy_overlap toy_db
                   toy_card (lit "y")) as [[? ?] ?].
Defined.

(** In that run the entered card is redeemed, once, and the card that
    the other process added in the meantime is in the table. *)
Example shared_session_redeems :
  let t' := (session_shared toy_hmac toy_key toy_env toy_overlap toy_db
               toy_card (lit "y")).2 in
  t' !! toy_card
  = Some (Row (lit "AAAAAAAAAAAAAAAA") (lit "c4d5e6f708") 100 true
              (Some 600%Z) 1) /\
  t' !! lit "BBBBBBBBBBBBBBBB#8394a5b6c7"
  = Some (Row (lit "BBBBBBBBBBBBBBBB") (lit "8394a5b6c7") 550 false None 0).
Proof. vm_compute. split; reflexivity. Qed.


Lemma consecutive_runs_never_redeem_twice_witness :
  single_use (default ∅ (cards_table toy_second_run)).
Proof.
  apply (consecutive_runs_never_redeem_twice toy_hmac toy_second_run).
  - unfold toy_second_run, toy_first_run.
    apply script_run, script_run, script_start.
  - unfold toy_second_run.
    destruct (main_creates_cards toy_hmac NoFault (fun _ => x00) toy_env
                toy_first_run toy_second_card (lit "y")) as [t Ht].
    rewrite Ht. reflexivity.
Defined.

(** The second of the two runs redeems the card it enters, once. *)
Example second_run_redeems :
  (fun t => usage_count <$> t !! toy_second_card) <$> cards_table toy_second_run
  = Some (Some 1%Z).
Proof. vm_compute. reflexivity. Qed.

Lemma script_keeps_the_key_witness :
  stored_key
    (main toy_hmac NoFault NoFault (fun _ => x00) toy_env
       (load_or_generate_key NoFault toy_entropy (Database None None)).2
       (lit "zzz") (lit "n")).2
  = Some (token_bytes toy_entropy 32).
Proof.
  apply (script_keeps_the_key toy_hmac NoFault NoFault (fun _ => x00) toy_env
           (load_or_generate_key NoFault toy_entropy (Database None None)).2
           (lit "zzz") (lit "n") (token_bytes toy_entropy 32)).
  reflexivity.
Defined.
